(** * BT Payment Triage: the diagnostic core of [app.py]

    A shallow embedding of the pure part of [app.py] (header
    normalisation, the reason rules, the unverified classifier, the fuzzy
    matcher and the row pipeline of [main]) together with the properties
    the specification states about it.

    Conventions of the embedding.
    - A Python [str] is a Coq [string]; its characters stand for the code
      points 0..255, on which [str.lower] and [str.strip] are given
      exactly.  Raw CSV headers, which go through NFKD and so leave that
      range, are sequences of code points ([ustring]).
    - A row ([pd.Series] indexed by column name) is a finite map from
      column names to cells; [row.get(c, d)] is lookup with a default.
    - A cell is one of the scalars pandas puts in a row read from CSV. *)

From Stdlib Require Import String Ascii ZArith NArith QArith List Bool Lia DecimalString.
From stdpp Require Import base option list gmap strings.

Local Open Scope string_scope.
Local Open Scope list_scope.

(** ** Python string operations *)

(** [str.lower] on code points below 256: A-Z and the Latin-1 capitals
    (U+00C0..U+00DE except the multiplication sign U+00D7) move up by 32. *)
Definition lower_char (c : ascii) : ascii :=
  let n := N_of_ascii c in
  if ((65 <=? n) && (n <=? 90) || (192 <=? n) && (n <=? 222) && negb (n =? 215))%N
  then ascii_of_N (n + 32) else c.

Fixpoint lower (s : string) : string :=
  match s with
  | EmptyString => EmptyString
  | String c s' => String (lower_char c) (lower s')
  end.

(** [str.isspace] on one character: TAB..CR, FS..US, SPACE, NEL, NBSP. *)
Definition isspace (c : ascii) : bool :=
  let n := N_of_ascii c in
  ((9 <=? n) && (n <=? 13) || (28 <=? n) && (n <=? 32)
   || (n =? 133) || (n =? 160))%N.

Definition is_empty (s : string) : bool :=
  match s with EmptyString => true | String _ _ => false end.

(** [s.lstrip(chars)], [s.rstrip(chars)] and [s.strip(chars)], the set of
    characters given as a predicate. *)
Fixpoint lstrip_by (p : ascii -> bool) (s : string) : string :=
  match s with
  | EmptyString => EmptyString
  | String c s' => if p c then lstrip_by p s' else s
  end.

Fixpoint rstrip_by (p : ascii -> bool) (s : string) : string :=
  match s with
  | EmptyString => EmptyString
  | String c s' =>
      let r := rstrip_by p s' in
      if p c && is_empty r then EmptyString else String c r
  end.

Definition strip_by (p : ascii -> bool) (s : string) : string :=
  rstrip_by p (lstrip_by p s).

(** [s.strip()] *)
Definition strip (s : string) : string := strip_by isspace s.

(** [s.startswith(t)] *)
Fixpoint startswith (s t : string) {struct t} : bool :=
  match t with
  | EmptyString => true
  | String a t' =>
      match s with
      | String b s' => if Ascii.eqb a b then startswith s' t' else false
      | EmptyString => false
      end
  end.

(** [t in s] for two strings. *)
Fixpoint contains (t s : string) : bool :=
  startswith s t ||
  match s with
  | EmptyString => false
  | String _ s' => contains t s'
  end.

(** [x in (t1, ..., tn)] for a tuple of strings. *)
Definition in_tuple (x : string) (t : list string) : bool :=
  existsb (String.eqb x) t.

(** [sep.join(l)] *)
Fixpoint join (sep : string) (l : list string) : string :=
  match l with
  | [] => EmptyString
  | [x] => x
  | x :: l' => x +:+ sep +:+ join sep l'
  end.

(** ** Cells and rows *)

(** The scalars of a row.  A float other than NaN is kept as the text
    [str] gives for it, which fixes the three things the program asks of
    a cell: its text, its truth value and whether it is null. *)
Inductive cell : Type :=
  | VStr (s : string)
  | VInt (z : Z)
  | VFloat (repr : string)
  | VBool (b : bool)
  | VNaN
  | VNone.

#[global] Instance cell_eq_dec : EqDecision cell.
Proof. solve_decision. Defined.

(** [str(v)] *)
Definition py_str (v : cell) : string :=
  match v with
  | VStr s => s
  | VInt z => NilZero.string_of_int (Z.to_int z)
  | VFloat r => r
  | VBool true => "True"
  | VBool false => "False"
  | VNaN => "nan"
  | VNone => "None"
  end.

(** [bool(v)]: NaN is a non-zero float, hence true. *)
Definition truthy (v : cell) : bool :=
  match v with
  | VStr s => negb (is_empty s)
  | VInt z => negb (z =? 0)%Z
  | VFloat r => negb (in_tuple r ["0.0"; "-0.0"])
  | VBool b => b
  | VNaN => true
  | VNone => false
  end.

(** [v or d] *)
Definition py_or (v d : cell) : cell := if truthy v then v else d.

(** [pd.isna(v)] on a scalar. *)
Definition isna (v : cell) : bool :=
  match v with
  | VNaN | VNone => true
  | _ => false
  end.

Abbreviation row := (gmap string cell).

(** [row.get(col, d)] *)
Definition get (r : row) (col : string) (d : cell) : cell :=
  default d (r !! col).

(** ** ReasonDeriver: [derive_reasons] *)

(** The local [val = lambda col: str(row.get(col, '') or '').strip()]. *)
Definition val (r : row) (col : string) : string :=
  strip (py_str (py_or (get r col (VStr EmptyString)) (VStr EmptyString))).

(** [reasons.append(m)] guarded by [if c:]. *)
Definition append_if (c : bool) (m : string) (reasons : list string) : list string :=
  if c then reasons ++ [m] else reasons.

(** The list [reasons] as it stands when line 51 is reached. *)
Definition reasons_of (r : row) : list string :=
  let val := val r in
  let reasons := [] in
  let reasons :=
    append_if (in_tuple (lower (val "payroll_process")) ["false"; "0"; "no"])
      "Payroll process flag is FALSE" reasons in
  let reasons :=
    append_if (contains "missing gps" (lower (val "location_status")))
      "Missing GPS" reasons in
  let reasons :=
    append_if (startswith (lower (val "hours_status")) "pending")
      ("Hours status " +:+ val "hours_status") reasons in
  let reasons :=
    append_if (startswith (lower (val "overall_status")) "pending")
      ("Overall status " +:+ val "overall_status") reasons in
  let delta := val "delta_vs_billing_hh_mm_ss" in
  let reasons :=
    append_if (negb (in_tuple delta [EmptyString; "0:00:00"; "0:0:0"; "0"]))
      ("Delta vs billing " +:+ delta) reasons in
  let sig := val "parent_s_signature_approval_for_time_adjustment_signature" in
  let sig_time :=
    val "parent_s_signature_approval_for_time_adjustment_signature_time" in
  let reasons :=
    append_if (negb (is_empty sig) && is_empty sig_time)
      "Parent signature present but missing time stamp" reasons in
  let aloha := val "aloha_status" in
  let reasons :=
    append_if (negb (is_empty aloha) && negb (contains "ready" (lower aloha)))
      ("Aloha status " +:+ aloha) reasons in
  reasons.

Definition derive_reasons (r : row) : string :=
  let reasons := reasons_of r in
  if bool_decide (reasons = []) then "Ready to bill" else join ", " reasons.

(** ** UnverifiedClassifier *)

(** The local [clean] of [row_reason_from_notes_or_hours]. *)
Definition clean (v : cell) : string :=
  if isna v then EmptyString else strip (py_str v).

Definition row_reason_from_notes_or_hours (r : row) : string :=
  let other := clean (get r "other_notes" (VStr EmptyString)) in
  if negb (is_empty other) then other
  else
    let hours := clean (get r "hours_status" (VStr EmptyString)) in
    if negb (is_empty hours) then hours else "No reason provided".

Definition is_unverified (r : row) : bool :=
  let val := get r "aloha_status" (VStr EmptyString) in
  let v := if isna val then EmptyString else lower (py_str val) in
  existsb (fun term => contains term v) ["unverified"; "cancelled"].

(** ** SchemaNormalizer: [normalize_columns] *)

(** A raw header: any sequence of Unicode code points. *)
Abbreviation ustring := (list N).

Definition ustring_of_string (s : string) : ustring :=
  map N_of_ascii (list_ascii_of_string s).

(** [.str.encode('ascii', errors='ignore').str.decode('ascii')]: the code
    points the ASCII codec cannot encode (128 and above) are left out. *)
Fixpoint encode_ascii_ignore (s : ustring) : string :=
  match s with
  | [] => EmptyString
  | cp :: s' =>
      if (cp <? 128)%N then String (ascii_of_N cp) (encode_ascii_ignore s')
      else encode_ascii_ignore s'
  end.

(** The character class [0-9a-z]. *)
Definition is_word (c : ascii) : bool :=
  let n := N_of_ascii c in
  ((48 <=? n) && (n <=? 57) || (97 <=? n) && (n <=? 122))%N.

(** [re.sub('[^0-9a-z]+', '_', s)], as the scan from the left does it: the
    first character of a run outside the class yields the underscore and
    the greedy [+] swallows the rest of the run ([in_run]). *)
Fixpoint sub_runs (in_run : bool) (s : string) : string :=
  match s with
  | EmptyString => EmptyString
  | String c s' =>
      if is_word c then String c (sub_runs false s')
      else if in_run then sub_runs true s'
      else String "_" (sub_runs true s')
  end.

Definition re_sub_nonword (s : string) : string := sub_runs false s.

Definition is_underscore (c : ascii) : bool := Ascii.eqb c "_".

Section Normalizer.

(** [unicodedata.normalize('NFKD', _)], the table-driven decomposition of
    the Unicode database, is taken as given. *)
Variable nfkd : ustring -> ustring.

(** One element of the chain on [df.columns] in [normalize_columns]. *)
Definition normalize_header (h : ustring) : string :=
  strip_by is_underscore
    (re_sub_nonword (lower (encode_ascii_ignore (nfkd h)))).

(** [normalize_columns]: the renamed column index and the [rename]
    dict, built by [dict(zip(df.columns, clean))] (a later pair with the
    same key replaces an earlier one). *)
Definition normalize_columns (columns : list ustring)
  : list string * gmap ustring string :=
  let clean := map normalize_header columns in
  let rename :=
    fold_left (fun m (kv : ustring * string) => <[kv.1 := kv.2]> m)
      (zip columns clean) ∅ in
  (clean, rename).

(** *** The algorithm as the specification words it *)

(** (ii) the printable ASCII range is U+0020..U+007E. *)
Definition is_printable_ascii (cp : N) : bool :=
  ((32 <=? cp) && (cp <=? 126))%N.

Definition spec_drop_nonprintable (s : ustring) : string :=
  string_of_list_ascii (map ascii_of_N (filter (fun cp => is_printable_ascii cp = true) s)).

(** (iv) cut the text into maximal runs of characters inside, and of
    characters outside, [0-9a-z]; each run outside becomes one
    underscore. *)
Fixpoint runs (s : string) : list (bool * string) :=
  match s with
  | EmptyString => []
  | String c s' =>
      match runs s' with
      | (w, r) :: rest =>
          if Bool.eqb w (is_word c) then (w, String c r) :: rest
          else (is_word c, String c EmptyString) :: (w, r) :: rest
      | [] => [(is_word c, String c EmptyString)]
      end
  end.

Definition spec_replace_runs (s : string) : string :=
  fold_right
    (fun (wr : bool * string) acc => (if wr.1 then wr.2 else "_") +:+ acc)
    EmptyString (runs s).

Definition spec_normalize_header (h : ustring) : string :=
  let s1 := nfkd h in
  let s2 := spec_drop_nonprintable s1 in
  let s3 := lower s2 in
  let s4 := spec_replace_runs s3 in
  strip_by is_underscore s4.

End Normalizer.

(** ** FuzzyMatcher *)

(** *** [difflib.SequenceMatcher(None, a, b)]

    The matcher of the Python standard library, with no junk predicate
    and the default [autojunk=True] (elements of [b] that occur in more
    than 1% of a [b] of 200 elements or more are "popular" and left out
    of the index [b2j]). *)
Module SequenceMatcher.
Section Matcher.

Variables a b : list ascii.

(** The indices of [c] in [b], in increasing order. *)
Definition indices (c : ascii) : list nat :=
  filter (fun j => b !! j = Some c) (seq 0 (length b)).

Definition popular (c : ascii) : bool :=
  ((200 <=? length b) && (length b / 100 + 1 <? length (indices c)))%nat.

(** [b2j.get(c, nothing)] after [__chain_b]. *)
Definition b2j (c : ascii) : list nat :=
  if popular c then [] else indices c.

(** [a[i] == b[j]] for two indices in range. *)
Definition same_at (i j : nat) : bool :=
  match a !! i, b !! j with
  | Some x, Some y => Ascii.eqb x y
  | _, _ => false
  end.

(** [(besti, bestj, bestsize)] *)
Definition best : Type := nat * nat * nat.

(** The body of [for j in b2j.get(a[i], nothing)].  The indices come in
    increasing order, so leaving the loop at the first [j >= bhi] and
    passing over every such [j] come to the same. *)
Definition inner_step (blo bhi i : nat) (j2len : gmap nat nat)
    (st : gmap nat nat * best) (j : nat) : gmap nat nat * best :=
  if ((j <? blo) || (bhi <=? j))%nat then st
  else
    let k := match j with
             | O => 0
             | S j' => default 0 (j2len !! j')
             end + 1 in
    (<[j := k]> st.1,
     if (st.2.2 <? k)%nat then (i + 1 - k, j + 1 - k, k) else st.2).

(** The body of [for i in range(alo, ahi)]; the state is [j2len] and the
    best match so far. *)
Definition outer_step (blo bhi : nat) (st : gmap nat nat * best) (i : nat)
  : gmap nat nat * best :=
  match a !! i with
  | Some c => fold_left (inner_step blo bhi i st.1) (b2j c) (∅, st.2)
  | None => (∅, st.2)
  end.

Definition longest_scan (alo ahi blo bhi : nat) : best :=
  (fold_left (outer_step blo bhi) (seq alo (ahi - alo)) (∅, (alo, blo, 0))).2.

(** [while besti > alo and bestj > blo and a[besti-1] == b[bestj-1]] *)
Fixpoint extend_left (alo blo besti bestj bestsize : nat) : best :=
  match besti, bestj with
  | S i', S j' =>
      if ((alo <? besti) && (blo <? bestj))%nat && same_at i' j'
      then extend_left alo blo i' j' (S bestsize)
      else (besti, bestj, bestsize)
  | _, _ => (besti, bestj, bestsize)
  end.

(** [while besti+bestsize < ahi and bestj+bestsize < bhi and
    a[besti+bestsize] == b[bestj+bestsize]]; the loop runs at most
    [ahi - (besti+bestsize)] times, which is the [n] it is given. *)
Fixpoint extend_right (n ahi bhi besti bestj bestsize : nat) : nat :=
  match n with
  | O => bestsize
  | S n' =>
      if ((besti + bestsize <? ahi) && (bestj + bestsize <? bhi))%nat
         && same_at (besti + bestsize) (bestj + bestsize)
      then extend_right n' ahi bhi besti bestj (S bestsize)
      else bestsize
  end.

(** [find_longest_match(alo, ahi, blo, bhi)]; the two loops over junk
    never run, the junk set being empty. *)
Definition find_longest_match (alo ahi blo bhi : nat) : best :=
  let '(besti, bestj, bestsize) := longest_scan alo ahi blo bhi in
  let '(besti, bestj, bestsize) := extend_left alo blo besti bestj bestsize in
  let bestsize :=
    extend_right (ahi - (besti + bestsize)) ahi bhi besti bestj bestsize in
  (besti, bestj, bestsize).

(** [(alo, ahi, blo, bhi)] *)
Definition window : Type := nat * nat * nat * nat.

(** The [while queue:] loop of [get_matching_blocks].  The head of the
    list is the end of the Python list, where [pop] and [append] work.
    [None] when the fuel runs out before the queue is empty. *)
Fixpoint blocks_loop (fuel : nat) (queue : list window)
    (matching_blocks : list best) : option (list best) :=
  match queue with
  | [] => Some matching_blocks
  | (alo, ahi, blo, bhi) :: queue =>
      match fuel with
      | O => None
      | S fuel' =>
          let '(i, j, k) := find_longest_match alo ahi blo bhi in
          if (k =? 0)%nat then blocks_loop fuel' queue matching_blocks
          else
            let queue :=
              if ((alo <? i) && (blo <? j))%nat then (alo, i, blo, j) :: queue
              else queue in
            let queue :=
              if ((i + k <? ahi) && (j + k <? bhi))%nat
              then (i + k, ahi, j + k, bhi) :: queue
              else queue in
            blocks_loop fuel' queue (matching_blocks ++ [(i, j, k)])
      end
  end.

(** The blocks found by [get_matching_blocks], before they are sorted,
    adjacent ones merged and the sentinel of size 0 added: none of that
    changes the sum of the sizes, which is all [ratio] uses. *)
Definition get_matching_blocks : option (list best) :=
  blocks_loop (2 * length a + 1) [(0, length a, 0, length b)] [].

(** [matches] of [ratio]: the sum of the block sizes. *)
Definition matches : option nat :=
  (fun blocks => list_sum (map (fun x : best => x.2) blocks))
    <$> get_matching_blocks.

End Matcher.
End SequenceMatcher.

(** [_calculate_ratio(matches, length)], as an exact fraction. *)
Definition calculate_ratio (matches length : nat) : Q :=
  if (length =? 0)%nat then 1%Q
  else (2 * Z.of_nat matches # Pos.of_nat length)%Q.

(** [SequenceMatcher(None, a, b).ratio()]; [None] only if the loop of
    [get_matching_blocks] were cut short, which does not happen
    ([ratio_total] below). *)
Definition ratio (a b : string) : option Q :=
  let a := list_ascii_of_string a in
  let b := list_ascii_of_string b in
  (fun m => calculate_ratio m (length a + length b))
    <$> SequenceMatcher.matches a b.

(** [ratio >= 0.6].  The program compares two doubles, the rounded
    quotient and the rounded literal; rounding is monotone and both round
    the same way, so the test agrees with the exact one whenever the exact
    ratio is at least 3/5, and otherwise unless it lies within 2^-53 of
    3/5, which needs strings of more than 10^15 characters. *)
Definition ratio_ge_threshold (r : Q) : bool := Qle_bool (6 # 10) r.

(** *** [row_matches], the closure defined in [main] *)

(** The loop [for col in search_cols] of [row_matches]. *)
Fixpoint any_similar (key : string) (r : row) (cols : list string) : bool :=
  match cols with
  | [] => false
  | col :: cols' =>
      let val := py_str (get r col (VStr EmptyString)) in
      let v := lower val in
      if is_empty v then any_similar key r cols'
      else
        match ratio key v with
        | Some x => if ratio_ge_threshold x then true else any_similar key r cols'
        | None => any_similar key r cols'
        end
  end.

Definition row_matches (key : string) (search_cols : list string) (r : row) : bool :=
  let text :=
    lower (join " | " (map (fun c => py_str (get r c (VStr EmptyString))) search_cols)) in
  if contains key text then true else any_similar key r search_cols.

(** ** TriagePipeline: the part of [main] from line 118 on *)

(** A data frame: the column index and the rows in their order.  The
    frame the pipeline starts from is [df] as it stands after the header
    normalisation and the column conversions of lines 104-116, which work
    column by column and leave the rows in place; column names are taken
    to be distinct.  A timestamp of [appt_date] is held as the text [str]
    gives for it, the one thing ever asked of it. *)
Record dataframe : Type := DataFrame {
  columns : list string;
  rows : list row
}.

(** [df[name] = df.apply(f, axis=1)] *)
Definition assign_apply (name : string) (f : row -> cell) (df : dataframe)
  : dataframe :=
  {| columns := if bool_decide (name ∈ columns df) then columns df
                else columns df ++ [name];
     rows := map (fun r => <[name := f r]> r) (rows df) |}.

(** [df[mask]] for a row predicate: the rows where it holds. *)
Definition select (p : row -> bool) (df : dataframe) : dataframe :=
  {| columns := columns df;
     rows := filter (fun r => p r = true) (rows df) |}.

(** Lines 119-122. *)
Definition derive (df : dataframe) : dataframe :=
  let df := assign_apply "not_paid_reason" (fun r => VStr (derive_reasons r)) df in
  let df := assign_apply "unverified" (fun r => VBool (is_unverified r)) df in
  let df := assign_apply "unverified_reason"
              (fun r => VStr (row_reason_from_notes_or_hours r)) df in
  let df := assign_apply "reason_session_unverified"
              (fun r => get r "unverified_reason" VNaN) df in
  df.

(** Line 131: [df[df['unverified']].copy()]. *)
Definition unverified_view (df : dataframe) : dataframe :=
  select (fun r => bool_decide (r !! "unverified" = Some (VBool true))) df.

(** Lines 135-138. *)
Definition search_cols_of (cols : list string) : list string :=
  let search_cols :=
    filter (fun c => c ∈ cols) ["staff_name"; "phone"; "client"] in
  if bool_decide (search_cols = []) then cols else search_cols.

(** Lines 133-156. *)
Definition fuzzy_filter (keyword : string) (unverified_df : dataframe)
  : dataframe :=
  if negb (is_empty keyword) then
    let key := strip (lower keyword) in
    let search_cols := search_cols_of (columns unverified_df) in
    select (row_matches key search_cols) unverified_df
  else unverified_df.

(** [main], from the frame at line 118 and the keyword typed in, to the
    augmented frame [df] and the frame [unverified_df] that is shown. *)
Definition main (df : dataframe) (keyword : string) : dataframe * dataframe :=
  let df := derive df in
  let unverified_df := unverified_view df in
  (df, fuzzy_filter keyword unverified_df).

(** ** The specification's view of the rules *)

(** The ReasonDeriver as the ordered list of (condition, message) pairs of
    the specification, each reading its fields through the accessor
    [val]. *)
Record rule : Type := Rule {
  fires : row -> bool;
  message : row -> string
}.

Definition payroll_rule : rule :=
  Rule (fun r => in_tuple (lower (val r "payroll_process")) ["false"; "0"; "no"])
       (fun _ => "Payroll process flag is FALSE").

Definition location_rule : rule :=
  Rule (fun r => contains "missing gps" (lower (val r "location_status")))
       (fun _ => "Missing GPS").

Definition hours_rule : rule :=
  Rule (fun r => startswith (lower (val r "hours_status")) "pending")
       (fun r => "Hours status " +:+ val r "hours_status").

Definition overall_rule : rule :=
  Rule (fun r => startswith (lower (val r "overall_status")) "pending")
       (fun r => "Overall status " +:+ val r "overall_status").

Definition delta_rule : rule :=
  Rule (fun r => negb (in_tuple (val r "delta_vs_billing_hh_mm_ss")
                         [EmptyString; "0:00:00"; "0:0:0"; "0"]))
       (fun r => "Delta vs billing " +:+ val r "delta_vs_billing_hh_mm_ss").

Definition signature_rule : rule :=
  Rule (fun r =>
          negb (is_empty (val r "parent_s_signature_approval_for_time_adjustment_signature"))
          && is_empty (val r "parent_s_signature_approval_for_time_adjustment_signature_time"))
       (fun _ => "Parent signature present but missing time stamp").

Definition aloha_rule : rule :=
  Rule (fun r => negb (is_empty (val r "aloha_status"))
                 && negb (contains "ready" (lower (val r "aloha_status"))))
       (fun r => "Aloha status " +:+ val r "aloha_status").

(** Rules 1 to 7, in the order of the specification. *)
Definition rules : list rule :=
  [payroll_rule; location_rule; hours_rule; overall_rule; delta_rule;
   signature_rule; aloha_rule].

(** The messages of the rules that fire, in rule order. *)
Definition fired_messages (r : row) : list string :=
  map (fun ru => message ru r) (filter (fun ru => fires ru r = true) rules).

(** [t] occurs in [s] as a substring. *)
Definition is_substring (t s : string) : Prop :=
  exists p q : string, s = p +:+ t +:+ q.

(** The lowercase value of the [aloha_status] field, a missing or null
    field counting as empty. *)
Definition aloha_text (r : row) : string :=
  match r !! "aloha_status" with
  | None | Some VNaN | Some VNone => EmptyString
  | Some v => lower (py_str v)
  end.

(** A field that is absent from the row or holds the empty string. *)
Definition absent_or_empty (r : row) (col : string) : Prop :=
  r !! col = None \/ r !! col = Some (VStr EmptyString).

(** The columns [derive] writes. *)
Definition derived_columns : list string :=
  ["not_paid_reason"; "unverified"; "unverified_reason";
   "reason_session_unverified"].

(** The row of the end-to-end scenario. *)
Definition scenario_row : row :=
  <["payroll_process" := VStr "FALSE"]>
    (<["hours_status" := VStr "Pending review"]>
       (<["aloha_status" := VStr "Ready"]>
          (<["other_notes" := VStr EmptyString]> ∅))).

Definition scenario_frame : dataframe :=
  {| columns := ["payroll_process"; "hours_status"; "aloha_status"; "other_notes"];
     rows := [scenario_row] |}.

(** What [derive] makes of one row: the four assignments of lines
    119-122, each seeing the columns written before it. *)
Definition augment (r : row) : row :=
  let r := <["not_paid_reason" := VStr (derive_reasons r)]> r in
  let r := <["unverified" := VBool (is_unverified r)]> r in
  let r := <["unverified_reason" := VStr (row_reason_from_notes_or_hours r)]> r in
  <["reason_session_unverified" := get r "unverified_reason" VNaN]> r.

(** What is assumed of NFKD: text that is already ASCII has no
    decomposition. *)
Definition fixes_ascii (nfkd : ustring -> ustring) : Prop :=
  forall s, Forall (fun cp => (cp < 128)%N) s -> nfkd s = s.

(** The ASCII control characters, U+0000..U+001F and U+007F. *)
Definition is_ascii_control (cp : N) : bool :=
  ((cp <? 32) || (cp =? 127))%N.

(** The body of a canonical identifier: characters of [0-9a-z] and
    single underscores; [after_us] says that the character before was an
    underscore. *)
Fixpoint canonical_from (after_us : bool) (s : string) : bool :=
  match s with
  | EmptyString => true
  | String c s' =>
      if is_word c then canonical_from false s'
      else is_underscore c && negb after_us && canonical_from true s'
  end.

(** [s] does not start with a character of the set [p], as is the case
    of what [lstrip] leaves. *)
Definition starts_clean (p : ascii -> bool) (s : string) : Prop :=
  match s with
  | EmptyString => True
  | String c _ => p c = false
  end.

(** The header "a", TAB, "b". *)
Definition header_a_tab_b : ustring := [97; 9; 98]%N.

(** The work left in a queue of windows: a window over [n] elements of
    [a] is taken off the queue once and cuts into windows over fewer
    than [n] elements in all. *)
Definition queue_measure (queue : list SequenceMatcher.window) : nat :=
  list_sum (map (fun w : SequenceMatcher.window => 2 * (w.1.1.2 - w.1.1.1) + 1) queue).

(** The state of the scan of [find_longest_match] when row [i] is
    reached: the best match lies in [alo, i) and no length in [j2len]
    exceeds the number of rows seen. *)
Definition scan_inv (alo i : nat) (st : gmap nat nat * SequenceMatcher.best)
  : Prop :=
  (alo <= st.2.1.1)%nat /\ (st.2.1.1 + st.2.2 <= i)%nat /\
  map_Forall (fun (_ : nat) (v : nat) => (v <= i - alo)%nat) st.1.

(** ** The two tabs of [main], lines 158-198 *)








(** Every character of [s] satisfies [p]. *)
Fixpoint all_by (p : ascii -> bool) (s : string) : bool :=
  match s with
  | EmptyString => true
  | String c s' => p c && all_by p s'
  end.

(** Some character of [s] is in [0-9a-z]. *)
Fixpoint has_word (s : string) : bool :=
  match s with
  | EmptyString => false
  | String c s' => is_word c || has_word s'
  end.

(** The ASCII letters and digits. *)
Definition is_ascii_alnum (cp : N) : bool :=
  ((48 <=? cp) && (cp <=? 57) || (65 <=? cp) && (cp <=? 90)
   || (97 <=? cp) && (cp <=? 122))%N.

(** * Properties *)

(** ** Strings *)

Lemma append_nil (t : string) : EmptyString +:+ t = t.
Proof. reflexivity. Qed.

Lemma append_cons (c : ascii) (s t : string) :
  String c s +:+ t = String c (s +:+ t).
Proof. reflexivity. Qed.

Lemma append_empty_r (s : string) : s +:+ EmptyString = s.
Proof.
  induction s as [|c s IH]; [reflexivity | now rewrite append_cons, IH].
Qed.

Lemma append_assoc (s t u : string) : (s +:+ t) +:+ u = s +:+ t +:+ u.
Proof.
  induction s as [|c s IH]; [reflexivity | now rewrite !append_cons, IH].
Qed.

Lemma startswith_spec (s t : string) :
  startswith s t = true <-> exists q, s = t +:+ q.
Proof.
  revert s. induction t as [|a t IH]; intros s; simpl.
  - split; [intros _; now exists s | reflexivity].
  - destruct s as [|b s].
    + split; [discriminate | intros [q Hq]; discriminate].
    + destruct (Ascii.eqb_spec a b) as [->|Hne].
      * rewrite IH. split; intros [q Hq]; exists q.
        -- now rewrite append_cons, Hq.
        -- rewrite append_cons in Hq. now inversion Hq.
      * split; [discriminate |].
        intros [q Hq]. rewrite append_cons in Hq. inversion Hq; congruence.
Qed.

Lemma contains_spec (t s : string) :
  contains t s = true <-> is_substring t s.
Proof.
  unfold is_substring. induction s as [|c s IH]; simpl.
  - rewrite orb_false_r, startswith_spec. split.
    + intros [q Hq]. now exists EmptyString, q.
    + intros [p [q Hq]]. destruct p; [now exists q | discriminate].
  - rewrite orb_true_iff, startswith_spec, IH. split.
    + intros [[q Hq] | [p [q Hq]]].
      * now exists EmptyString, q.
      * exists (String c p), q. now rewrite append_cons, Hq.
    + intros [p [q Hq]]. destruct p as [|c' p].
      * left. now exists q.
      * right. rewrite append_cons in Hq. inversion Hq. now exists p, q.
Qed.

Lemma contains_empty (s : string) : contains EmptyString s = true.
Proof. destruct s; reflexivity. Qed.

Lemma is_empty_true (s : string) : is_empty s = true <-> s = EmptyString.
Proof. destruct s; simpl; split; congruence. Qed.

Lemma join_substring (sep m : string) (l : list string) :
  m ∈ l -> is_substring m (join sep l).
Proof.
  induction l as [|x l IH]; intros Hin.
  - inversion Hin.
  - apply elem_of_cons in Hin as [-> | Hin].
    + destruct l as [|y l].
      * exists EmptyString, EmptyString. simpl. now rewrite append_nil, append_empty_r.
      * exists EmptyString, (sep +:+ join sep (y :: l)). reflexivity.
    + destruct (IH Hin) as [p [q Hq]]. destruct l as [|y l]; [inversion Hin |].
      exists (x +:+ sep +:+ p), q.
      change (join sep (x :: y :: l)) with (x +:+ sep +:+ join sep (y :: l)).
      now rewrite Hq, !append_assoc.
Qed.

(** ** Rows *)

Lemma get_insert_ne (r : row) (k col : string) (v d : cell) :
  k <> col -> get (<[k := v]> r) col d = get r col d.
Proof. intros Hne. unfold get. now rewrite lookup_insert_ne. Qed.

Lemma val_insert_ne (r : row) (k col : string) (v : cell) :
  k <> col -> val (<[k := v]> r) col = val r col.
Proof. intros Hne. unfold val. now rewrite get_insert_ne. Qed.

Lemma is_unverified_insert_ne (r : row) (k : string) (v : cell) :
  k <> "aloha_status" -> is_unverified (<[k := v]> r) = is_unverified r.
Proof. intros Hne. unfold is_unverified. now rewrite get_insert_ne. Qed.

Lemma row_reason_insert_ne (r : row) (k : string) (v : cell) :
  k <> "other_notes" -> k <> "hours_status" ->
  row_reason_from_notes_or_hours (<[k := v]> r) = row_reason_from_notes_or_hours r.
Proof.
  intros H1 H2. unfold row_reason_from_notes_or_hours.
  now rewrite !get_insert_ne.
Qed.

Lemma val_absent_or_empty (r : row) (col : string) :
  absent_or_empty r col -> val r col = EmptyString.
Proof. unfold val, get. now intros [-> | ->]. Qed.

(** ** ReasonDeriver *)

Lemma append_if_app (c : bool) (m : string) (l : list string) :
  append_if c m l = l ++ (if c then [m] else []).
Proof. destruct c; simpl; [reflexivity | now rewrite app_nil_r]. Qed.

Lemma fired_cons (r : row) (ru : rule) (l : list rule) :
  map (fun ru => message ru r) (filter (fun ru => fires ru r = true) (ru :: l))
  = (if fires ru r then [message ru r] else [])
      ++ map (fun ru => message ru r) (filter (fun ru => fires ru r = true) l).
Proof.
  rewrite filter_cons. destruct (decide (fires ru r = true)) as [H | H].
  - now rewrite H.
  - apply not_true_is_false in H. now rewrite H.
Qed.

(** The list the code builds by successive appends is the list of the
    messages of the rules that fire, in rule order. *)
Lemma reasons_of_fired (r : row) : reasons_of r = fired_messages r.
Proof.
  unfold fired_messages, rules. rewrite !fired_cons, filter_nil.
  unfold reasons_of. rewrite !append_if_app.
  cbn [fires message payroll_rule location_rule hours_rule overall_rule
       delta_rule signature_rule aloha_rule map].
  rewrite app_nil_l, app_nil_r, <- !app_assoc. reflexivity.
Qed.

Lemma derive_reasons_fired (r : row) :
  derive_reasons r =
  match fired_messages r with
  | [] => "Ready to bill"
  | l => join ", " l
  end.
Proof.
  unfold derive_reasons. rewrite reasons_of_fired.
  now destruct (fired_messages r).
Qed.

Lemma fired_messages_none (r : row) (l : list rule) :
  Forall (fun ru => fires ru r = false) l ->
  filter (fun ru => fires ru r = true) l = [].
Proof.
  induction 1 as [|ru l Hru _ IH]; [reflexivity |].
  rewrite filter_cons, IH. destruct (decide (fires ru r = true)); congruence.
Qed.

(** C1. The messages of [derive_reasons] are those of the rules that
    fire, in the fixed order of rules 1 to 7 and joined by a comma and a
    space; when no rule fires the result is "Ready to bill"; and when
    exactly the payroll rule and the overall-status rule fire, the latter
    on the value "Pending", the result is
    "Payroll process flag is FALSE, Overall status Pending". *)
Theorem derive_reasons_rule_order (r : row) :
  reasons_of r = fired_messages r /\
  derive_reasons r =
    match fired_messages r with
    | [] => "Ready to bill"
    | l => join ", " l
    end /\
  (Forall (fun ru => fires ru r = false) rules ->
   derive_reasons r = "Ready to bill") /\
  (fires payroll_rule r = true ->
   val r "overall_status" = "Pending" ->
   Forall (fun ru => fires ru r = false)
     [location_rule; hours_rule; delta_rule; signature_rule; aloha_rule] ->
   derive_reasons r = "Payroll process flag is FALSE, Overall status Pending").
Proof.
  split; [apply reasons_of_fired |].
  split; [apply derive_reasons_fired |].
  split.
  - intros Hnone. rewrite derive_reasons_fired. unfold fired_messages.
    now rewrite fired_messages_none.
  - intros Hpay Hover Hrest. rewrite derive_reasons_fired.
    unfold fired_messages, rules.
    repeat match goal with
           | H : Forall _ (_ :: _) |- _ =>
               apply Forall_cons in H; destruct H as [? H]
           end.
    assert (Hfo : fires overall_rule r = true).
    { cbn [fires overall_rule]. now rewrite Hover. }
    rewrite !filter_cons, filter_nil.
    repeat match goal with
           | |- context [decide (?c = true)] =>
               destruct (decide (c = true)); try congruence
           end.
    cbn [map message payroll_rule overall_rule]. now rewrite Hover.
Qed.

Lemma derive_reasons_rule_order_witness :
  derive_reasons
    (<["payroll_process" := VStr "No"]> (<["overall_status" := VStr "Pending"]> ∅))
  = "Payroll process flag is FALSE, Overall status Pending"
  /\ derive_reasons ∅ = "Ready to bill".
Proof.
  split.
  - apply (derive_reasons_rule_order
             (<["payroll_process" := VStr "No"]>
                (<["overall_status" := VStr "Pending"]> ∅))).
    + reflexivity.
    + reflexivity.
    + repeat constructor.
  - apply (derive_reasons_rule_order ∅). repeat constructor.
Defined.

Lemma derive_reasons_ext (r1 r2 : row) :
  (forall col, val r1 col = val r2 col) ->
  derive_reasons r1 = derive_reasons r2.
Proof.
  intros Hval. unfold derive_reasons, reasons_of. now rewrite !Hval.
Qed.

Lemma val_blank (r : row) (col c : string) (v : cell) :
  truthy v = false -> val (<[col := v]> r) c = val (delete col r) c.
Proof.
  intros Hv. unfold val, get. destruct (decide (col = c)) as [-> | Hne].
  - rewrite lookup_insert_eq, lookup_delete_eq. cbn [default from_option id].
    unfold py_or. now rewrite Hv.
  - now rewrite lookup_insert_ne, lookup_delete_ne.
Qed.

(** C3, at a null cell.  Whatever the row and the field, a missing key,
    [None] and the empty string give the same result, and the function is
    total.  But a cell pandas reads as null is NaN, a float that is true
    in Python: [val] gives "nan" for it, not the empty string, and the
    aloha rule (and likewise the delta rule) fires on a blank cell, where
    the two sibling functions, which ask [pd.isna], see an empty field. *)
Theorem derive_reasons_null_cell :
  (forall (r : row) (col : string),
     derive_reasons (<[col := VStr EmptyString]> r) = derive_reasons (delete col r) /\
     derive_reasons (<[col := VNone]> r) = derive_reasons (delete col r)) /\
  derive_reasons ∅ = "Ready to bill" /\
  derive_reasons (<["aloha_status" := VStr EmptyString]> ∅) = "Ready to bill" /\
  derive_reasons (<["aloha_status" := VNone]> ∅) = "Ready to bill" /\
  derive_reasons (<["aloha_status" := VNaN]> ∅) = "Aloha status nan" /\
  derive_reasons (<["delta_vs_billing_hh_mm_ss" := VNaN]> ∅) = "Delta vs billing nan" /\
  is_unverified (<["aloha_status" := VNaN]> ∅) = false /\
  row_reason_from_notes_or_hours (<["other_notes" := VNaN]> ∅) = "No reason provided".
Proof.
  split.
  - intros r col.
    split; apply derive_reasons_ext; intros c; now apply val_blank.
  - repeat split; reflexivity.
Qed.

(** C6. A row whose delta field trims to "0:0:0", "0:00:00", "0" or the
    empty string gets no message that starts with "Delta vs billing"; a row
    whose field trims to "0:00:01" gets "Delta vs billing 0:00:01" in its
    list of reasons and so in the joined result. *)
Theorem delta_boundary (r : row) :
  (val r "delta_vs_billing_hh_mm_ss" ∈ ["0:0:0"; "0:00:00"; "0"; EmptyString] ->
   forall m, m ∈ reasons_of r -> startswith m "Delta vs billing" = false) /\
  (val r "delta_vs_billing_hh_mm_ss" = "0:00:01" ->
   "Delta vs billing 0:00:01" ∈ reasons_of r /\
   is_substring "Delta vs billing 0:00:01" (derive_reasons r)).
Proof.
  split.
  - intros Hzero m Hm. rewrite reasons_of_fired in Hm.
    unfold fired_messages in Hm.
    apply list_elem_of_fmap in Hm as [ru [-> Hru]].
    apply list_elem_of_filter in Hru as [Hfires Hin].
    unfold rules in Hin.
    repeat (apply elem_of_cons in Hin as [-> | Hin]); try reflexivity.
    + exfalso. cbn [fires delta_rule] in Hfires.
      repeat (apply elem_of_cons in Hzero as [Hz | Hzero];
              [rewrite Hz in Hfires; discriminate |]).
      inversion Hzero.
    + inversion Hin.
  - intros Hone.
    assert (Hin : "Delta vs billing 0:00:01" ∈ reasons_of r).
    { rewrite reasons_of_fired. unfold fired_messages.
      apply list_elem_of_fmap. exists delta_rule. split.
      - cbn [message delta_rule]. now rewrite Hone.
      - apply list_elem_of_filter. split.
        + cbn [fires delta_rule]. now rewrite Hone.
        + unfold rules. set_solver. }
    split; [exact Hin |].
    unfold derive_reasons.
    destruct (bool_decide_reflect (reasons_of r = [])) as [Hnil | _].
    + rewrite Hnil in Hin. inversion Hin.
    + now apply join_substring.
Qed.

Lemma delta_boundary_witness :
  (forall m,
     m ∈ reasons_of (<["delta_vs_billing_hh_mm_ss" := VStr " 0:0:0 "]> ∅) ->
     startswith m "Delta vs billing" = false) /\
  "Delta vs billing 0:00:01"
    ∈ reasons_of (<["delta_vs_billing_hh_mm_ss" := VStr "0:00:01"]> ∅).
Proof.
  split.
  - apply (delta_boundary (<["delta_vs_billing_hh_mm_ss" := VStr " 0:0:0 "]> ∅)).
    apply list_elem_of_here.
  - apply (delta_boundary (<["delta_vs_billing_hh_mm_ss" := VStr "0:00:01"]> ∅)).
    reflexivity.
Defined.

(** ** UnverifiedClassifier *)

Lemma is_unverified_text (r : row) :
  is_unverified r =
  contains "unverified" (aloha_text r) || contains "cancelled" (aloha_text r).
Proof.
  unfold is_unverified, aloha_text, get.
  destruct (r !! "aloha_status") as [[]|]; simpl; now rewrite ?orb_false_r.
Qed.

(** C7. [is_unverified] holds exactly when the lowercase value of
    [aloha_status] has "unverified" or "cancelled" as a substring, a
    missing or null field counting as empty and giving false; it holds for
    "Cancelled by client" and fails for "Ready". *)
Theorem is_unverified_iff (r : row) :
  (is_unverified r = true <->
   is_substring "unverified" (aloha_text r) \/
   is_substring "cancelled" (aloha_text r)) /\
  (r !! "aloha_status" = None \/ r !! "aloha_status" = Some VNaN \/
   r !! "aloha_status" = Some VNone ->
   aloha_text r = EmptyString /\ is_unverified r = false) /\
  (r !! "aloha_status" = Some (VStr "Cancelled by client") ->
   is_unverified r = true) /\
  (r !! "aloha_status" = Some (VStr "Ready") -> is_unverified r = false).
Proof.
  split; [| split; [| split]].
  - rewrite is_unverified_text, orb_true_iff. now rewrite !contains_spec.
  - intros Hnull. rewrite is_unverified_text. unfold aloha_text.
    now destruct Hnull as [-> | [-> | ->]].
  - intros Hc. rewrite is_unverified_text. unfold aloha_text. now rewrite Hc.
  - intros Hr. rewrite is_unverified_text. unfold aloha_text. now rewrite Hr.
Qed.

Lemma is_unverified_iff_witness :
  is_unverified (<["aloha_status" := VStr "Cancelled by client"]> ∅) = true /\
  is_unverified (<["aloha_status" := VStr "Ready"]> ∅) = false /\
  is_unverified ∅ = false /\
  is_unverified (<["aloha_status" := VNaN]> ∅) = false.
Proof.
  split; [| split; [| split]].
  - destruct (is_unverified_iff
                (<["aloha_status" := VStr "Cancelled by client"]> ∅))
      as (_ & _ & H & _).
    apply H. reflexivity.
  - destruct (is_unverified_iff (<["aloha_status" := VStr "Ready"]> ∅))
      as (_ & _ & _ & H).
    apply H. reflexivity.
  - destruct (is_unverified_iff ∅) as (_ & H & _).
    apply H. left. reflexivity.
  - destruct (is_unverified_iff (<["aloha_status" := VNaN]> ∅)) as (_ & H & _).
    apply H. right. left. reflexivity.
Defined.

(** ** TriagePipeline *)

Lemma rows_derive (df : dataframe) : rows (derive df) = map augment (rows df).
Proof.
  unfold derive, assign_apply. cbn [rows]. rewrite !map_map. reflexivity.
Qed.

Lemma augment_lookup (r : row) :
  augment r !! "not_paid_reason" = Some (VStr (derive_reasons r)) /\
  augment r !! "unverified" = Some (VBool (is_unverified r)) /\
  augment r !! "unverified_reason"
    = Some (VStr (row_reason_from_notes_or_hours r)) /\
  augment r !! "reason_session_unverified"
    = Some (VStr (row_reason_from_notes_or_hours r)) /\
  (forall c, c ∉ derived_columns -> augment r !! c = r !! c).
Proof.
  unfold augment.
  rewrite !row_reason_insert_ne, !is_unverified_insert_ne by discriminate.
  unfold get. rewrite lookup_insert_eq. cbn [default].
  repeat split.
  - now rewrite !lookup_insert_ne, lookup_insert_eq by discriminate.
  - now rewrite !lookup_insert_ne, lookup_insert_eq by discriminate.
  - now rewrite !lookup_insert_ne, lookup_insert_eq by discriminate.
  - now rewrite lookup_insert_eq.
  - intros c Hc. unfold derived_columns in Hc.
    rewrite !lookup_insert_ne; [reflexivity | ..];
      intros <-; apply Hc; set_solver.
Qed.

Lemma select_all (p : row -> bool) (df : dataframe) :
  (forall r, p r = true) -> select p df = df.
Proof.
  intros Hall. destruct df as [cols rs]. unfold select. cbn [columns rows].
  f_equal. induction rs as [|r rs IH]; [reflexivity |].
  rewrite filter_cons. destruct (decide (p r = true)) as [_ | Hn].
  - now rewrite IH.
  - now rewrite Hall in Hn.
Qed.

Lemma rows_fuzzy_filter_sublist (keyword : string) (df : dataframe) :
  rows (fuzzy_filter keyword df) `sublist_of` rows df.
Proof.
  unfold fuzzy_filter. destruct (negb (is_empty keyword)); [| reflexivity].
  apply sublist_filter.
Qed.

Lemma sublist_all_filter {A} (P : A -> Prop) `{!forall x, Decision (P x)}
    (l k : list A) :
  l `sublist_of` k -> Forall P l -> l `sublist_of` filter P k.
Proof.
  induction 1 as [|x l1 l2 _ IH|x l1 l2 _ IH]; intros Hall.
  - constructor.
  - apply Forall_cons in Hall as [Hx Hall]. rewrite filter_cons.
    destruct (decide (P x)); [| contradiction].
    constructor. now apply IH.
  - rewrite filter_cons. destruct (decide (P x)).
    + constructor. now apply IH.
    + now apply IH.
Qed.

(** C2. The row of the end-to-end scenario (payroll "FALSE", hours
    "Pending review", aloha "Ready", empty notes, the other fields the
    rules read absent or empty) gets not_paid_reason
    "Payroll process flag is FALSE, Hours status Pending review",
    unverified false and unverified_reason "Pending review", from the
    three functions and in the frame [main] builds. *)
Theorem scenario_end_to_end (r : row) (cols : list string) (keyword : string) :
  r !! "payroll_process" = Some (VStr "FALSE") ->
  r !! "hours_status" = Some (VStr "Pending review") ->
  r !! "aloha_status" = Some (VStr "Ready") ->
  r !! "other_notes" = Some (VStr EmptyString) ->
  Forall (absent_or_empty r)
    ["location_status"; "overall_status"; "delta_vs_billing_hh_mm_ss";
     "parent_s_signature_approval_for_time_adjustment_signature"] ->
  derive_reasons r
    = "Payroll process flag is FALSE, Hours status Pending review" /\
  is_unverified r = false /\
  row_reason_from_notes_or_hours r = "Pending review" /\
  exists r',
    rows (main (DataFrame cols [r]) keyword).1 = [r'] /\
    r' !! "not_paid_reason"
      = Some (VStr "Payroll process flag is FALSE, Hours status Pending review") /\
    r' !! "unverified" = Some (VBool false) /\
    r' !! "unverified_reason" = Some (VStr "Pending review") /\
    rows (main (DataFrame cols [r]) keyword).2 = [].
Proof.
  intros Hpay Hhours Haloha Hnotes Hrest.
  rewrite !Forall_cons in Hrest.
  destruct Hrest as (Hloc & Hov & Hdel & Hsig & _).
  apply val_absent_or_empty in Hloc, Hov, Hdel, Hsig.
  assert (Hvp : val r "payroll_process" = "FALSE")
    by (unfold val, get; now rewrite Hpay).
  assert (Hvh : val r "hours_status" = "Pending review")
    by (unfold val, get; now rewrite Hhours).
  assert (Hva : val r "aloha_status" = "Ready")
    by (unfold val, get; now rewrite Haloha).
  assert (Hd : derive_reasons r
               = "Payroll process flag is FALSE, Hours status Pending review").
  { unfold derive_reasons, reasons_of.
    rewrite Hloc, Hov, Hdel, Hsig, Hvp, Hvh, Hva. reflexivity. }
  assert (Hu : is_unverified r = false).
  { unfold is_unverified, get. now rewrite Haloha. }
  assert (Hr : row_reason_from_notes_or_hours r = "Pending review").
  { unfold row_reason_from_notes_or_hours, get. now rewrite Hnotes, Hhours. }
  repeat split; try assumption.
  exists (augment r).
  destruct (augment_lookup r) as (Hl1 & Hl2 & Hl3 & _ & _).
  rewrite Hd in Hl1. rewrite Hu in Hl2. rewrite Hr in Hl3.
  split; [unfold main; cbn [fst]; now rewrite rows_derive |].
  repeat (split; [assumption |]).
  apply sublist_nil_r.
  etransitivity; [apply rows_fuzzy_filter_sublist |].
  unfold unverified_view, select. cbn [rows]. rewrite rows_derive.
  cbn [rows map]. rewrite filter_cons, filter_nil, Hl2.
  reflexivity.
Qed.

Lemma scenario_end_to_end_witness :
  derive_reasons scenario_row
    = "Payroll process flag is FALSE, Hours status Pending review" /\
  is_unverified scenario_row = false /\
  row_reason_from_notes_or_hours scenario_row = "Pending review".
Proof.
  destruct (scenario_end_to_end scenario_row (columns scenario_frame) EmptyString)
    as (H1 & H2 & H3 & _).
  - reflexivity.
  - reflexivity.
  - reflexivity.
  - reflexivity.
  - repeat constructor.
  - exact (conj H1 (conj H2 H3)).
Defined.

(** C9. The augmented frame lists the input rows in their order, each
    with its derived fields and otherwise unchanged; the unverified view
    is the subsequence of the augmented rows made of exactly those whose
    [unverified] is true (it holds every subsequence of such rows); and
    the view after the fuzzy filter is a subsequence of that view, so
    still in input order. *)
Theorem pipeline_order_preserving (df : dataframe) (keyword : string) :
  length (rows (main df keyword).1) = length (rows df) /\
  (forall i r,
     rows df !! i = Some r ->
     exists r',
       rows (main df keyword).1 !! i = Some r' /\
       r' !! "unverified" = Some (VBool (is_unverified r)) /\
       r' !! "not_paid_reason" = Some (VStr (derive_reasons r)) /\
       forall c, c ∉ derived_columns -> r' !! c = r !! c) /\
  rows (unverified_view (main df keyword).1)
    `sublist_of` rows (main df keyword).1 /\
  (forall r',
     r' ∈ rows (unverified_view (main df keyword).1) <->
     r' ∈ rows (main df keyword).1 /\ r' !! "unverified" = Some (VBool true)) /\
  (forall l,
     l `sublist_of` rows (main df keyword).1 ->
     Forall (fun r' => r' !! "unverified" = Some (VBool true)) l ->
     l `sublist_of` rows (unverified_view (main df keyword).1)) /\
  rows (main df keyword).2
    `sublist_of` rows (unverified_view (main df keyword).1) /\
  (forall r',
     r' ∈ rows (main df keyword).2 ->
     r' ∈ rows (main df keyword).1 /\ r' !! "unverified" = Some (VBool true)) /\
  (keyword = EmptyString ->
   (main df keyword).2 = unverified_view (main df keyword).1).
Proof.
  unfold main. cbn [fst snd].
  split; [now rewrite rows_derive, length_map |].
  split.
  { intros i r Hi. exists (augment r).
    destruct (augment_lookup r) as (H1 & H2 & _ & _ & H5).
    rewrite rows_derive, list_lookup_fmap, Hi. now repeat split. }
  split; [apply sublist_filter |].
  split.
  { intros r'. unfold unverified_view, select. cbn [rows].
    rewrite list_elem_of_filter, bool_decide_eq_true. tauto. }
  split.
  { intros l Hsub Hall. unfold unverified_view, select. cbn [rows].
    apply sublist_all_filter; [exact Hsub |].
    eapply Forall_impl; [exact Hall |].
    intros r' Hr'. now apply bool_decide_eq_true. }
  split; [apply rows_fuzzy_filter_sublist |].
  split.
  { intros r' Hin.
    eapply elem_of_sublist in Hin; [| apply rows_fuzzy_filter_sublist].
    unfold unverified_view, select in Hin. cbn [rows] in Hin.
    apply list_elem_of_filter in Hin as [Hu Hin].
    apply bool_decide_eq_true in Hu. now split. }
  intros ->. reflexivity.
Qed.

Lemma pipeline_order_preserving_witness :
  (exists r',
     rows (main scenario_frame EmptyString).1 !! 0 = Some r' /\
     r' !! "unverified" = Some (VBool (is_unverified scenario_row))) /\
  (main scenario_frame EmptyString).2
    = unverified_view (main scenario_frame EmptyString).1.
Proof.
  destruct (pipeline_order_preserving scenario_frame EmptyString)
    as (_ & Hrow & _ & _ & _ & _ & _ & Hkey).
  split.
  - destruct (Hrow 0 scenario_row) as (r' & H1 & H2 & _); [reflexivity |].
    exists r'. exact (conj H1 H2).
  - apply Hkey. reflexivity.
Defined.

(** C10. A keyword that is not empty but lowers and strips to the empty
    string matches every row, whatever the search columns: the filtered
    view is the whole unverified view. *)
Theorem whitespace_query_matches_all (df : dataframe) (keyword : string) :
  keyword <> EmptyString ->
  strip (lower keyword) = EmptyString ->
  (forall search_cols r,
     row_matches (strip (lower keyword)) search_cols r = true) /\
  fuzzy_filter keyword (unverified_view (derive df))
    = unverified_view (derive df) /\
  (main df keyword).2 = unverified_view (derive df).
Proof.
  intros Hne Hkey.
  assert (Hall : forall search_cols r,
             row_matches (strip (lower keyword)) search_cols r = true).
  { intros search_cols r. unfold row_matches.
    now rewrite Hkey, contains_empty. }
  assert (Hf : forall d, fuzzy_filter keyword d = d).
  { intros d. unfold fuzzy_filter.
    destruct keyword; [congruence |]. cbn [is_empty negb].
    apply select_all. intros r. apply Hall. }
  split; [exact Hall |]. split; [apply Hf |]. unfold main. apply Hf.
Qed.

Lemma whitespace_query_matches_all_witness :
  (main scenario_frame "  ").2 = unverified_view (derive scenario_frame).
Proof.
  apply (whitespace_query_matches_all scenario_frame "  ").
  - discriminate.
  - reflexivity.
Defined.

(** ** SchemaNormalizer *)

Lemma sub_runs_word_head (b : bool) (c : ascii) (s : string) :
  is_word c = true -> sub_runs b (String c s) = String c (sub_runs false s).
Proof. intros Hc. simpl. now rewrite Hc. Qed.

Lemma sub_runs_nonword_head (c : ascii) (s : string) :
  is_word c = false ->
  sub_runs false (String c s) = String "_" (sub_runs true s) /\
  sub_runs true (String c s) = sub_runs true s.
Proof. intros Hc. simpl. now rewrite Hc. Qed.

(** The first run of [runs s] starts at the first character of [s]. *)
Lemma runs_head (s : string) :
  match runs s with
  | [] => s = EmptyString
  | (w, _) :: _ => exists c s', s = String c s' /\ w = is_word c
  end.
Proof.
  destruct s as [|c s]; [reflexivity |]. simpl.
  destruct (runs s) as [|[w r] rest]; [now exists c, s |].
  destruct (Bool.eqb w (is_word c)) eqn:Hw.
  - exists c, s. split; [reflexivity |]. now apply Bool.eqb_prop.
  - now exists c, s.
Qed.

(** The scan of the regular expression replaces exactly the maximal runs. *)
Lemma re_sub_nonword_runs (s : string) :
  re_sub_nonword s = spec_replace_runs s.
Proof.
  unfold re_sub_nonword, spec_replace_runs.
  induction s as [|c s IH]; [reflexivity |].
  pose proof (runs_head s) as Hhead. cbn [runs].
  destruct (runs s) as [|[w r] rest].
  - subst s. simpl. destruct (is_word c); reflexivity.
  - destruct Hhead as (c' & s' & -> & ->). cbn [fold_right fst snd] in IH |- *.
    destruct (is_word c) eqn:Hc, (is_word c') eqn:Hc'; cbn [Bool.eqb fold_right fst snd].
    + rewrite (sub_runs_word_head _ _ _ Hc), IH. now rewrite append_cons.
    + rewrite (sub_runs_word_head _ _ _ Hc), IH. reflexivity.
    + destruct (sub_runs_nonword_head c (String c' s') Hc) as [-> _].
      rewrite (sub_runs_word_head true _ _ Hc').
      rewrite <- (sub_runs_word_head false _ _ Hc'), IH. reflexivity.
    + destruct (sub_runs_nonword_head c (String c' s') Hc) as [-> _].
      destruct (sub_runs_nonword_head c' s' Hc') as [Hf Ht].
      rewrite Ht, <- Hf, IH. reflexivity.
Qed.

Lemma encode_ascii_ignore_printable (s : ustring) :
  Forall (fun cp => is_ascii_control cp = false) s ->
  encode_ascii_ignore s = spec_drop_nonprintable s.
Proof.
  unfold spec_drop_nonprintable.
  induction 1 as [|cp s Hcp _ IH]; [reflexivity |].
  cbn [encode_ascii_ignore]. rewrite filter_cons, IH.
  unfold is_ascii_control in Hcp. apply orb_false_iff in Hcp as [H32 H127].
  apply N.ltb_ge in H32. apply N.eqb_neq in H127.
  unfold is_printable_ascii.
  destruct (N.ltb_spec cp 128) as [Hlt | Hge].
  - destruct (decide ((32 <=? cp)%N && (cp <=? 126)%N = true)) as [_ | Hn].
    + reflexivity.
    + exfalso. apply Hn. apply andb_true_iff. split.
      * now apply N.leb_le.
      * apply N.leb_le. lia.
  - destruct (decide ((32 <=? cp)%N && (cp <=? 126)%N = true)) as [Hp | _].
    + apply andb_true_iff in Hp as [_ Hp]. apply N.leb_le in Hp. lia.
    + reflexivity.
Qed.

(** C5, as amended.  On every header whose NFKD form holds no ASCII
    control character the code is the five-step algorithm of the
    specification.  The code drops the characters outside ASCII, not
    those outside printable ASCII: a control character stays until the
    replacement step and counts there as a character outside [0-9a-z], so
    "a", TAB, "b" becomes "a_b". *)
Theorem normalize_header_five_steps (nfkd : ustring -> ustring) (h : ustring) :
  (Forall (fun cp => is_ascii_control cp = false) (nfkd h) ->
   normalize_header nfkd h = spec_normalize_header nfkd h) /\
  (nfkd header_a_tab_b = header_a_tab_b ->
   normalize_header nfkd header_a_tab_b = "a_b").
Proof.
  split.
  - intros Hctl. unfold normalize_header, spec_normalize_header.
    now rewrite re_sub_nonword_runs, encode_ascii_ignore_printable.
  - intros Hfix. unfold normalize_header. rewrite Hfix. reflexivity.
Qed.

Lemma normalize_header_five_steps_witness :
  normalize_header (fun s => s) (ustring_of_string "Staff Name (BT)")
  = spec_normalize_header (fun s => s) (ustring_of_string "Staff Name (BT)")
  /\ normalize_header (fun s => s) header_a_tab_b = "a_b".
Proof.
  split.
  - apply (normalize_header_five_steps (fun s => s)
             (ustring_of_string "Staff Name (BT)")).
    repeat constructor.
  - apply (normalize_header_five_steps (fun s => s) header_a_tab_b).
    reflexivity.
Defined.

(** C5, as stated, fails: whatever NFKD does elsewhere, if it leaves the
    ASCII header "a", TAB, "b" alone, the code gives "a_b" where the
    algorithm of the specification, which drops the TAB first, gives
    "ab". *)
Lemma normalize_header_keeps_control :
  ~ exists nfkd : ustring -> ustring,
      fixes_ascii nfkd /\
      normalize_header nfkd header_a_tab_b
        = spec_normalize_header nfkd header_a_tab_b.
Proof.
  intros (nfkd & Hfix & Heq).
  assert (Hh : nfkd header_a_tab_b = header_a_tab_b).
  { apply Hfix. unfold header_a_tab_b. repeat constructor. }
  unfold normalize_header, spec_normalize_header in Heq.
  rewrite Hh in Heq. discriminate Heq.
Qed.

(** *** Canonical identifiers are fixed points *)

Lemma canonical_sub_runs (b : bool) (s : string) :
  canonical_from b (sub_runs b s) = true.
Proof.
  revert b. induction s as [|c s IH]; intros b; [reflexivity |].
  cbn [sub_runs]. destruct (is_word c) eqn:Hc.
  - cbn [canonical_from]. rewrite Hc. apply IH.
  - destruct b; [apply IH |].
    cbn [canonical_from]. rewrite (IH true). reflexivity.
Qed.

Lemma canonical_weaken (b : bool) (s : string) :
  canonical_from b s = true -> canonical_from false s = true.
Proof.
  destruct s as [|c s]; [reflexivity |]. cbn [canonical_from].
  destruct (is_word c); [trivial |].
  destruct b; [| trivial].
  rewrite andb_false_r. discriminate.
Qed.

Lemma canonical_cons (b : bool) (c : ascii) (s : string) :
  canonical_from b (String c s) = true ->
  (is_word c = true /\ canonical_from false s = true) \/
  (is_word c = false /\ c = "_"%char /\ b = false /\ canonical_from true s = true).
Proof.
  cbn [canonical_from]. destruct (is_word c); [now left |].
  intros H. apply andb_true_iff in H as [H Hs].
  apply andb_true_iff in H as [Hu Hb].
  right. repeat split; [| now destruct b | exact Hs].
  now apply Ascii.eqb_eq in Hu.
Qed.

Lemma canonical_sub_runs_id (b : bool) (s : string) :
  canonical_from b s = true -> sub_runs b s = s.
Proof.
  revert b. induction s as [|c s IH]; intros b Hs; [reflexivity |].
  apply canonical_cons in Hs as [[Hc Hs] | (Hc & -> & -> & Hs)].
  - rewrite (sub_runs_word_head _ _ _ Hc). now rewrite IH.
  - cbn [sub_runs]. rewrite Hc. now rewrite IH.
Qed.

Lemma is_word_bounds (c : ascii) :
  is_word c = true ->
  (48 <= N_of_ascii c <= 57 \/ 97 <= N_of_ascii c <= 122)%N.
Proof.
  unfold is_word. intros H.
  apply orb_true_iff in H as [H | H]; apply andb_true_iff in H as [H1 H2];
    apply N.leb_le in H1, H2; lia.
Qed.

Lemma lower_char_word (c : ascii) : is_word c = true -> lower_char c = c.
Proof.
  intros Hc. apply is_word_bounds in Hc. unfold lower_char.
  destruct (N.leb_spec 65 (N_of_ascii c)), (N.leb_spec (N_of_ascii c) 90),
    (N.leb_spec 192 (N_of_ascii c)), (N.leb_spec (N_of_ascii c) 222);
    cbn [andb orb]; try reflexivity; lia.
Qed.

Lemma canonical_lower (b : bool) (s : string) :
  canonical_from b s = true -> lower s = s.
Proof.
  revert b. induction s as [|c s IH]; intros b Hs; [reflexivity |].
  cbn [lower].
  apply canonical_cons in Hs as [[Hc Hs] | (Hc & -> & -> & Hs)].
  - now rewrite (lower_char_word _ Hc), (IH false).
  - now rewrite (IH true).
Qed.

Lemma canonical_ascii (b : bool) (s : string) :
  canonical_from b s = true ->
  Forall (fun cp => (cp < 128)%N) (ustring_of_string s) /\
  encode_ascii_ignore (ustring_of_string s) = s.
Proof.
  revert b. induction s as [|c s IH]; intros b Hs; [now split |].
  unfold ustring_of_string in *. cbn [list_ascii_of_string map encode_ascii_ignore].
  assert (Hlt : (N_of_ascii c < 128)%N /\ exists b', canonical_from b' s = true).
  { apply canonical_cons in Hs as [[Hc Hs] | (Hc & -> & -> & Hs)].
    - apply is_word_bounds in Hc. split; [lia | now exists false].
    - split; [reflexivity | now exists true]. }
  destruct Hlt as [Hlt [b' Hs']]. destruct (IH b' Hs') as [IH1 IH2].
  split; [now constructor |].
  apply N.ltb_lt in Hlt. now rewrite Hlt, ascii_N_embedding, IH2.
Qed.

Lemma canonical_lstrip (b : bool) (s : string) :
  canonical_from b s = true ->
  canonical_from false (lstrip_by is_underscore s) = true.
Proof.
  revert b. induction s as [|c s IH]; intros b Hs; [reflexivity |].
  cbn [lstrip_by]. destruct (is_underscore c) eqn:Hu.
  - apply canonical_cons in Hs as [[_ Hs] | (_ & _ & _ & Hs)]; eauto.
  - eapply canonical_weaken, Hs.
Qed.

Lemma canonical_rstrip (b : bool) (s : string) :
  canonical_from b s = true ->
  canonical_from b (rstrip_by is_underscore s) = true.
Proof.
  revert b. induction s as [|c s IH]; intros b Hs; [reflexivity |].
  cbn [rstrip_by].
  destruct (is_underscore c && is_empty (rstrip_by is_underscore s));
    [reflexivity |].
  cbn [canonical_from].
  apply canonical_cons in Hs as [[Hc Hs] | (Hc & -> & -> & Hs)]; rewrite Hc.
  - now apply IH.
  - now rewrite (IH true Hs).
Qed.

Lemma lstrip_starts_clean (p : ascii -> bool) (s : string) :
  starts_clean p (lstrip_by p s).
Proof.
  induction s as [|c s IH]; [exact I |].
  cbn [lstrip_by]. destruct (p c) eqn:Hc; [exact IH | exact Hc].
Qed.

Lemma rstrip_starts_clean (p : ascii -> bool) (s : string) :
  starts_clean p s -> starts_clean p (rstrip_by p s).
Proof.
  destruct s as [|c s]; [trivial |]. cbn [starts_clean rstrip_by].
  intros Hc. now rewrite Hc.
Qed.

Lemma lstrip_clean_id (p : ascii -> bool) (s : string) :
  starts_clean p s -> lstrip_by p s = s.
Proof.
  destruct s as [|c s]; [reflexivity |]. cbn [starts_clean lstrip_by].
  now intros ->.
Qed.

Lemma rstrip_idempotent (p : ascii -> bool) (s : string) :
  rstrip_by p (rstrip_by p s) = rstrip_by p s.
Proof.
  induction s as [|c s IH]; [reflexivity |]. cbn [rstrip_by].
  destruct (p c && is_empty (rstrip_by p s)) eqn:Hc; [reflexivity |].
  cbn [rstrip_by]. now rewrite IH, Hc.
Qed.

Lemma strip_by_idempotent (p : ascii -> bool) (s : string) :
  strip_by p (strip_by p s) = strip_by p s.
Proof.
  unfold strip_by.
  rewrite (lstrip_clean_id p (rstrip_by p (lstrip_by p s))).
  - apply rstrip_idempotent.
  - apply rstrip_starts_clean, lstrip_starts_clean.
Qed.

Lemma normalize_header_canonical (nfkd : ustring -> ustring) (h : ustring) :
  canonical_from false (normalize_header nfkd h) = true.
Proof.
  unfold normalize_header, strip_by, re_sub_nonword.
  apply canonical_rstrip. eapply canonical_lstrip, canonical_sub_runs.
Qed.

(** C8. Normalising the result of normalising a header gives the same
    identifier again, and so does normalising a whole normalised column
    index, given that NFKD leaves ASCII text alone. *)
Theorem normalize_header_idempotent (nfkd : ustring -> ustring) :
  fixes_ascii nfkd ->
  (forall h,
     normalize_header nfkd (ustring_of_string (normalize_header nfkd h))
     = normalize_header nfkd h) /\
  (forall cols,
     (normalize_columns nfkd
        (map ustring_of_string (normalize_columns nfkd cols).1)).1
     = (normalize_columns nfkd cols).1).
Proof.
  intros Hfix.
  assert (Hh : forall h,
             normalize_header nfkd (ustring_of_string (normalize_header nfkd h))
             = normalize_header nfkd h).
  { intros h. pose proof (normalize_header_canonical nfkd h) as Hcan.
    destruct (canonical_ascii _ _ Hcan) as [Hascii Henc].
    unfold normalize_header at 1.
    rewrite (Hfix _ Hascii), Henc, (canonical_lower _ _ Hcan).
    unfold re_sub_nonword. rewrite (canonical_sub_runs_id _ _ Hcan).
    unfold normalize_header. apply strip_by_idempotent. }
  split; [exact Hh |].
  intros cols. unfold normalize_columns. cbn [fst].
  rewrite !map_map. apply map_ext. intros h. apply Hh.
Qed.

Lemma normalize_header_idempotent_witness :
  normalize_header (fun s => s)
    (ustring_of_string
       (normalize_header (fun s => s) (ustring_of_string " Staff  Name (BT)_")))
  = normalize_header (fun s => s) (ustring_of_string " Staff  Name (BT)_").
Proof.
  apply (normalize_header_idempotent (fun s => s)).
  intros s _. reflexivity.
Defined.

(** ** FuzzyMatcher *)

Section MatcherBounds.

Import SequenceMatcher.
Variables a b : list ascii.

Lemma inner_step_inv (alo blo bhi i j : nat) (j2len : gmap nat nat)
    (st : gmap nat nat * best) :
  alo <= i ->
  map_Forall (fun _ v => v <= i - alo) j2len ->
  scan_inv alo (S i) st ->
  scan_inv alo (S i) (inner_step blo bhi i j2len st j).
Proof.
  intros Hi Hold (Hlo & Hhi & Hnew). unfold inner_step.
  destruct ((j <? blo) || (bhi <=? j))%nat; [now repeat split |].
  set (k := (match j with
             | O => 0
             | S j' => default 0 (j2len !! j')
             end + 1)%nat).
  assert (Hk : k <= S i - alo).
  { subst k. destruct j as [|j']; [lia |].
    destruct (j2len !! j') as [v|] eqn:Hv; cbn [default from_option id]; [| lia].
    apply Hold in Hv. cbn beta in Hv. lia. }
  unfold scan_inv. cbn [fst snd]. split; [| split].
  - destruct (st.2.2 <? k)%nat; cbn [fst snd]; lia.
  - destruct (st.2.2 <? k)%nat; cbn [fst snd]; lia.
  - now apply map_Forall_insert_2.
Qed.

Lemma inner_fold_inv (alo blo bhi i : nat) (j2len : gmap nat nat)
    (js : list nat) (st : gmap nat nat * best) :
  alo <= i ->
  map_Forall (fun _ v => v <= i - alo) j2len ->
  scan_inv alo (S i) st ->
  scan_inv alo (S i) (fold_left (inner_step blo bhi i j2len) js st).
Proof.
  intros Hi Hold. revert st.
  induction js as [|j js IH]; intros st Hst; [exact Hst |].
  cbn [fold_left]. apply IH. now apply inner_step_inv.
Qed.

Lemma outer_step_inv (alo blo bhi i : nat) (st : gmap nat nat * best) :
  alo <= i ->
  scan_inv alo i st ->
  scan_inv alo (S i) (outer_step a b blo bhi st i).
Proof.
  intros Hi (Hlo & Hhi & Hmap).
  assert (Hstart : scan_inv alo (S i) (∅, st.2)).
  { repeat split; cbn [fst snd]; [lia | lia | apply map_Forall_empty]. }
  unfold outer_step. destruct (a !! i); [| exact Hstart].
  now apply inner_fold_inv.
Qed.

Lemma outer_fold_inv (alo blo bhi n i : nat) (st : gmap nat nat * best) :
  alo <= i ->
  scan_inv alo i st ->
  scan_inv alo (i + n) (fold_left (outer_step a b blo bhi) (seq i n) st).
Proof.
  revert i st. induction n as [|n IH]; intros i st Hi Hst.
  - now rewrite Nat.add_0_r.
  - cbn [seq fold_left]. replace (i + S n) with (S i + n) by lia.
    apply IH; [lia |]. now apply outer_step_inv.
Qed.

Lemma longest_scan_bounds (alo ahi blo bhi : nat) :
  alo <= ahi ->
  alo <= (longest_scan a b alo ahi blo bhi).1.1 /\
  (longest_scan a b alo ahi blo bhi).1.1 + (longest_scan a b alo ahi blo bhi).2
    <= ahi.
Proof.
  intros Hle. unfold longest_scan.
  destruct (outer_fold_inv alo blo bhi (ahi - alo) alo (∅, (alo, blo, 0)))
    as (Hlo & Hhi & _).
  - lia.
  - repeat split; cbn [fst snd]; [lia | lia | apply map_Forall_empty].
  - replace (alo + (ahi - alo)) with ahi in Hhi by lia. now split.
Qed.

Lemma extend_left_bounds (alo blo besti bestj bestsize : nat) :
  alo <= besti ->
  alo <= (extend_left a b alo blo besti bestj bestsize).1.1 /\
  (extend_left a b alo blo besti bestj bestsize).1.1
    + (extend_left a b alo blo besti bestj bestsize).2
  = besti + bestsize.
Proof.
  revert bestj bestsize.
  induction besti as [|i' IH]; intros bestj bestsize Hle.
  - cbn [extend_left fst snd]. lia.
  - cbn [extend_left]. destruct bestj as [|j']; [cbn [fst snd]; lia |].
    destruct ((alo <? S i') && (blo <? S j'))%nat eqn:Hg;
      [| cbn [andb fst snd]; lia].
    destruct (same_at a b i' j'); [| cbn [andb fst snd]; lia].
    cbn [andb]. apply andb_true_iff in Hg as [Hg _].
    apply Nat.ltb_lt in Hg.
    destruct (IH j' (S bestsize)) as [H1 H2]; [lia |]. split; [exact H1 | lia].
Qed.

Lemma extend_right_bounds (n ahi bhi besti bestj bestsize : nat) :
  besti + bestsize <= ahi ->
  bestsize <= extend_right a b n ahi bhi besti bestj bestsize /\
  besti + extend_right a b n ahi bhi besti bestj bestsize <= ahi.
Proof.
  revert bestsize. induction n as [|n IH]; intros bestsize Hle.
  - cbn [extend_right]. lia.
  - cbn [extend_right].
    destruct ((besti + bestsize <? ahi) && (bestj + bestsize <? bhi))%nat
      eqn:Hg; [| cbn [andb]; lia].
    destruct (same_at a b (besti + bestsize) (bestj + bestsize));
      [| cbn [andb]; lia].
    cbn [andb]. apply andb_true_iff in Hg as [Hg _].
    apply Nat.ltb_lt in Hg.
    destruct (IH (S bestsize)) as [H1 H2]; lia.
Qed.

(** The match found lies inside the window of [a]. *)
Lemma find_longest_match_bounds (alo ahi blo bhi i j k : nat) :
  alo <= ahi ->
  find_longest_match a b alo ahi blo bhi = (i, j, k) ->
  alo <= i /\ i + k <= ahi.
Proof.
  intros Hle. unfold find_longest_match.
  pose proof (longest_scan_bounds alo ahi blo bhi Hle) as [Hs1 Hs2].
  destruct (longest_scan a b alo ahi blo bhi) as [[si sj] sk].
  cbn [fst snd] in Hs1, Hs2.
  pose proof (extend_left_bounds alo blo si sj sk Hs1) as [Hl1 Hl2].
  destruct (extend_left a b alo blo si sj sk) as [[li lj] lk].
  cbn [fst snd] in Hl1, Hl2.
  intros Heq. injection Heq as <- <- <-.
  destruct (extend_right_bounds (ahi - (li + lk)) ahi bhi li lj lk); lia.
Qed.

End MatcherBounds.

Section MatcherTotal.

Import SequenceMatcher.
Variables a b : list ascii.

Lemma queue_measure_cons (alo ahi blo bhi : nat) (queue : list window) :
  queue_measure ((alo, ahi, blo, bhi) :: queue)
  = 2 * (ahi - alo) + 1 + queue_measure queue.
Proof. reflexivity. Qed.

(** The loop of [get_matching_blocks] empties its queue within
    [queue_measure] steps: with that much fuel it returns. *)
Lemma blocks_loop_total (fuel : nat) (queue : list window)
    (matching_blocks : list best) :
  Forall (fun w : window => w.1.1.1 <= w.1.1.2) queue ->
  queue_measure queue <= fuel ->
  is_Some (blocks_loop a b fuel queue matching_blocks).
Proof.
  revert queue matching_blocks.
  induction fuel as [|fuel IH]; intros queue matching_blocks Hwin Hfuel.
  - destruct queue as [|[[[alo ahi] blo] bhi] queue]; [now eexists |].
    rewrite queue_measure_cons in Hfuel. lia.
  - destruct queue as [|[[[alo ahi] blo] bhi] queue]; [now eexists |].
    apply Forall_cons in Hwin as [Hw Hwin]. cbn [fst snd] in Hw.
    rewrite queue_measure_cons in Hfuel.
    cbn [blocks_loop].
    destruct (find_longest_match a b alo ahi blo bhi) as [[i j] k] eqn:Hflm.
    destruct (find_longest_match_bounds a b _ _ _ _ _ _ _ Hw Hflm) as [Hi Hk].
    destruct (Nat.eqb_spec k 0) as [-> | Hpos].
    + apply IH; [exact Hwin | lia].
    + destruct ((alo <? i) && (blo <? j))%nat eqn:Hleft;
        destruct ((i + k <? ahi) && (j + k <? bhi))%nat eqn:Hright;
        apply IH;
        repeat match goal with
               | H : (_ && _)%bool = true |- _ =>
                   apply andb_true_iff in H as [H _]; apply Nat.ltb_lt in H
               | |- Forall _ (_ :: _) => constructor; [cbn [fst snd]; lia |]
               end;
        try exact Hwin;
        rewrite ?queue_measure_cons; lia.
Qed.

Lemma get_matching_blocks_total : is_Some (get_matching_blocks a b).
Proof.
  unfold get_matching_blocks. apply blocks_loop_total.
  - constructor; [cbn [fst snd]; lia | constructor].
  - rewrite queue_measure_cons. cbn. lia.
Qed.

End MatcherTotal.

(** [ratio] always returns: the fuel of the model is never used up. *)
Lemma ratio_total (a b : string) : is_Some (ratio a b).
Proof.
  unfold ratio, SequenceMatcher.matches.
  destruct (get_matching_blocks_total (list_ascii_of_string a)
              (list_ascii_of_string b)) as [blocks ->].
  now eexists.
Qed.

(** C4, as amended.  For the query "jon" and the column value
    "John Smith" the blocks matched over the lowercased pair are "jo" and
    "n": 3 characters out of 13, a ratio of 6/13, which is below 0.6; and
    "jon" is not a substring of "john smith".  A row whose one candidate
    column holds "John Smith" is not matched. *)
Theorem jon_john_smith_below_threshold (r : row) :
  SequenceMatcher.get_matching_blocks
    (list_ascii_of_string "jon") (list_ascii_of_string (lower "John Smith"))
    = Some [(0, 0, 2); (2, 3, 1)] /\
  ratio "jon" (lower "John Smith") = Some (6 # 13)%Q /\
  ratio_ge_threshold (6 # 13) = false /\
  contains "jon" (lower "John Smith") = false /\
  (r !! "staff_name" = Some (VStr "John Smith") ->
   row_matches "jon" ["staff_name"] r = false).
Proof.
  split; [vm_compute; reflexivity |].
  split; [vm_compute; reflexivity |].
  split; [reflexivity |].
  split; [reflexivity |].
  intros Hname. unfold row_matches, any_similar, get. cbn [map join].
  rewrite !Hname. vm_compute. reflexivity.
Qed.

Lemma jon_john_smith_below_threshold_witness :
  row_matches "jon" ["staff_name"] (<["staff_name" := VStr "John Smith"]> ∅)
  = false.
Proof.
  destruct (jon_john_smith_below_threshold
              (<["staff_name" := VStr "John Smith"]> ∅)) as (_ & _ & _ & _ & H).
  apply H. reflexivity.
Defined.

(** C4, as stated, fails: the ratio of "jon" and "john smith" does not
    reach the threshold, and the fuzzy filter for the keyword "jon" drops
    the row that holds "John Smith" in its one candidate column. *)
Lemma jon_john_smith_not_matched :
  ~ (exists x, ratio "jon" (lower "John Smith") = Some x /\
               ratio_ge_threshold x = true) /\
  rows (fuzzy_filter "jon"
          {| columns := ["staff_name"];
             rows := [<["staff_name" := VStr "John Smith"]> ∅] |}) = [].
Proof.
  split.
  - intros (x & Hx & Hge).
    assert (Hr : ratio "jon" (lower "John Smith") = Some (6 # 13)%Q)
      by (vm_compute; reflexivity).
    rewrite Hr in Hx. injection Hx as <-. discriminate Hge.
  - vm_compute. reflexivity.
Qed.

(** * Further properties of the code *)

(** ** Strings *)

Lemma lower_append (s t : string) : lower (s +:+ t) = lower s +:+ lower t.
Proof.
  induction s as [|c s IH]; [reflexivity |].
  rewrite append_cons. cbn [lower]. now rewrite IH, append_cons.
Qed.

Lemma is_substring_lower (t s : string) :
  is_substring t s -> is_substring (lower t) (lower s).
Proof.
  intros (p & q & ->). exists (lower p), (lower q).
  now rewrite !lower_append.
Qed.

Lemma is_substring_trans (t u s : string) :
  is_substring t u -> is_substring u s -> is_substring t s.
Proof.
  intros (p & q & ->) (p' & q' & ->).
  exists (p' +:+ p), (q +:+ q'). now rewrite !append_assoc.
Qed.

Lemma strip_idempotent (s : string) : strip (strip s) = strip s.
Proof. apply strip_by_idempotent. Qed.

Lemma clean_stripped (v : cell) : strip (clean v) = clean v.
Proof.
  unfold clean. destruct (isna v); [reflexivity | apply strip_idempotent].
Qed.

Lemma is_empty_false (s : string) : is_empty s = false <-> s <> EmptyString.
Proof. destruct s; simpl; split; congruence. Qed.

(** ** UnverifiedClassifier: the preferred reason *)

Lemma row_reason_shape (r : row) :
  row_reason_from_notes_or_hours r <> EmptyString /\
  strip (row_reason_from_notes_or_hours r) = row_reason_from_notes_or_hours r.
Proof.
  unfold row_reason_from_notes_or_hours.
  destruct (is_empty (clean (get r "other_notes" (VStr EmptyString)))) eqn:Ho;
    cbn [negb].
  - destruct (is_empty (clean (get r "hours_status" (VStr EmptyString))))
      eqn:Hh; cbn [negb].
    + split; [discriminate | reflexivity].
    + split; [now apply is_empty_false | apply clean_stripped].
  - split; [now apply is_empty_false | apply clean_stripped].
Qed.

(** X1. [row_reason_from_notes_or_hours] never returns the empty string
    and what it returns carries no white space at either end. *)
Theorem row_reason_never_blank (r : row) :
  row_reason_from_notes_or_hours r <> EmptyString /\
  strip (row_reason_from_notes_or_hours r) = row_reason_from_notes_or_hours r.
Proof. apply row_reason_shape. Qed.

Lemma row_reason_ext (r1 r2 : row) :
  clean (get r1 "other_notes" (VStr EmptyString))
    = clean (get r2 "other_notes" (VStr EmptyString)) ->
  clean (get r1 "hours_status" (VStr EmptyString))
    = clean (get r2 "hours_status" (VStr EmptyString)) ->
  row_reason_from_notes_or_hours r1 = row_reason_from_notes_or_hours r2.
Proof.
  intros Ho Hh. unfold row_reason_from_notes_or_hours. now rewrite Ho, Hh.
Qed.

(** X2. A blank [other_notes] cell (NaN, [None], the empty string or
    white space only) is the same to [row_reason_from_notes_or_hours] as
    a missing one, and a blank [hours_status] likewise: the fallback
    chain goes by the cleaned text alone. *)
Theorem row_reason_blank_is_missing (r : row) (col : string) (v : cell) :
  clean v = EmptyString ->
  row_reason_from_notes_or_hours (<[col := v]> r)
  = row_reason_from_notes_or_hours (delete col r).
Proof.
  intros Hv.
  assert (Hget : forall c,
             clean (get (<[col := v]> r) c (VStr EmptyString))
             = clean (get (delete col r) c (VStr EmptyString))).
  { intros c. unfold get. destruct (decide (col = c)) as [-> | Hne].
    - now rewrite lookup_insert_eq, lookup_delete_eq.
    - now rewrite lookup_insert_ne, lookup_delete_ne. }
  apply row_reason_ext; apply Hget.
Qed.

Lemma row_reason_blank_is_missing_witness :
  row_reason_from_notes_or_hours
    (<["other_notes" := VNaN]> (<["hours_status" := VStr " late "]> ∅))
  = row_reason_from_notes_or_hours
      (delete "other_notes" (<["hours_status" := VStr " late "]> ∅))
  /\ row_reason_from_notes_or_hours
       (<["other_notes" := VStr "   "]> ∅)
     = row_reason_from_notes_or_hours (delete "other_notes" ∅).
Proof.
  split.
  - apply (row_reason_blank_is_missing _ "other_notes" VNaN). reflexivity.
  - apply (row_reason_blank_is_missing ∅ "other_notes" (VStr "   ")).
    reflexivity.
Defined.

(** ** ReasonDeriver *)

Lemma join_cons_head (sep m : string) (l : list string) :
  exists rest, join sep (m :: l) = m +:+ rest.
Proof.
  destruct l as [|y l].
  - exists EmptyString. cbn [join]. now rewrite append_empty_r.
  - now exists (sep +:+ join sep (y :: l)).
Qed.

(** No message of a rule starts like the sentinel. *)
Lemma message_not_sentinel (r : row) (ru : rule) (rest : string) :
  ru ∈ rules -> message ru r +:+ rest <> "Ready to bill".
Proof.
  unfold rules. intros Hin.
  repeat (apply elem_of_cons in Hin as [-> | Hin]);
    [discriminate .. | inversion Hin].
Qed.

Lemma ready_to_bill_fires_none (r : row) :
  derive_reasons r = "Ready to bill" <->
  Forall (fun ru => fires ru r = false) rules.
Proof.
  split.
  - intros Hready. rewrite derive_reasons_fired in Hready.
    destruct (fired_messages r) as [|m l] eqn:Hfired.
    + unfold fired_messages in Hfired. apply fmap_nil_inv in Hfired.
      apply Forall_forall. intros ru Hru.
      destruct (fires ru r) eqn:Hf; [| reflexivity].
      assert (Hin : ru ∈ filter (fun ru => fires ru r = true) rules)
        by now apply list_elem_of_filter.
      rewrite Hfired in Hin. inversion Hin.
    + exfalso.
      assert (Hm : m ∈ fired_messages r) by (rewrite Hfired; apply list_elem_of_here).
      unfold fired_messages in Hm.
      apply list_elem_of_fmap in Hm as [ru [-> Hru]].
      apply list_elem_of_filter in Hru as [_ Hru].
      destruct (join_cons_head ", " (message ru r) l) as [rest Hrest].
      rewrite Hrest in Hready.
      exact (message_not_sentinel r ru rest Hru Hready).
  - intros Hnone. rewrite derive_reasons_fired. unfold fired_messages.
    now rewrite fired_messages_none.
Qed.

(** X3. The sentinel is unambiguous: [derive_reasons] returns
    "Ready to bill" exactly when no rule fires. *)
Theorem ready_to_bill_iff (r : row) :
  derive_reasons r = "Ready to bill" <->
  Forall (fun ru => fires ru r = false) rules.
Proof. apply ready_to_bill_fires_none. Qed.

Lemma ready_to_bill_iff_witness :
  derive_reasons (<["aloha_status" := VStr "Ready"]> ∅) = "Ready to bill".
Proof.
  apply (ready_to_bill_iff (<["aloha_status" := VStr "Ready"]> ∅)).
  repeat constructor.
Defined.

(** X4. White space around a text cell is of no account to
    [derive_reasons]: the cell and its stripped text give the same
    result, whatever the column. *)
Theorem derive_reasons_trim (r : row) (col s : string) :
  derive_reasons (<[col := VStr s]> r)
  = derive_reasons (<[col := VStr (strip s)]> r).
Proof.
  apply derive_reasons_ext. intros c. unfold val, get.
  destruct (decide (col = c)) as [-> | Hne].
  - rewrite !lookup_insert_eq. cbn [default from_option id].
    unfold py_or. cbn [truthy].
    destruct s as [|a s]; [reflexivity |]. cbn [is_empty negb py_str].
    destruct (strip (String a s)) as [|a' s'] eqn:Hs; [reflexivity |].
    cbn [is_empty negb py_str]. rewrite <- Hs. symmetry. apply strip_idempotent.
  - now rewrite !lookup_insert_ne.
Qed.

(** X5. A cell that is false in Python ([False], the integer 0, the
    float 0.0, [None], the empty string) is the same to [derive_reasons]
    as a missing field; so a [payroll_process] cell that holds the
    boolean [False] or the number 0 does not fire the payroll rule, which
    only text such as "FALSE" or "0" does. *)
Theorem derive_reasons_falsy_cell (r : row) (col : string) (v : cell) :
  truthy v = false ->
  derive_reasons (<[col := v]> r) = derive_reasons (delete col r) /\
  fires payroll_rule (<["payroll_process" := v]> r) = false.
Proof.
  intros Hv. split.
  - apply derive_reasons_ext. intros c. now apply val_blank.
  - cbn [fires payroll_rule]. rewrite (val_blank r _ _ v Hv).
    unfold val, get. now rewrite lookup_delete_eq.
Qed.

Lemma derive_reasons_falsy_cell_witness :
  fires payroll_rule (<["payroll_process" := VBool false]> ∅) = false /\
  fires payroll_rule (<["payroll_process" := VInt 0]> ∅) = false /\
  fires payroll_rule (<["payroll_process" := VStr "False"]> ∅) = true.
Proof.
  split; [| split].
  - apply (derive_reasons_falsy_cell ∅ "payroll_process" (VBool false)).
    reflexivity.
  - apply (derive_reasons_falsy_cell ∅ "payroll_process" (VInt 0)).
    reflexivity.
  - reflexivity.
Defined.

(** ** FuzzyMatcher *)

(** X6. The substring tier: a row matches as soon as the key occurs in
    the lowercase text of one of the candidate columns; the similarity
    ratio is then never asked.  The text of a cell is what [str] gives,
    so a null cell is searched as "nan". *)
Theorem row_matches_substring (key : string) (search_cols : list string)
    (r : row) (col : string) :
  col ∈ search_cols ->
  is_substring key (lower (py_str (get r col (VStr EmptyString)))) ->
  row_matches key search_cols r = true.
Proof.
  intros Hcol Hkey. unfold row_matches.
  assert (Hc : contains key
                 (lower (join " | "
                           (map (fun c => py_str (get r c (VStr EmptyString)))
                              search_cols))) = true).
  { apply contains_spec. eapply is_substring_trans; [exact Hkey |].
    apply is_substring_lower, join_substring.
    apply list_elem_of_fmap. now exists col. }
  now rewrite Hc.
Qed.

Lemma row_matches_substring_witness :
  row_matches "smith" ["staff_name"; "phone"]
    (<["staff_name" := VStr "John SMITH"]> ∅) = true /\
  row_matches "nan" ["staff_name"; "phone"]
    (<["staff_name" := VStr "Ann"]> (<["phone" := VNaN]> ∅)) = true.
Proof.
  split.
  - apply (row_matches_substring "smith" _ _ "staff_name").
    + apply list_elem_of_here.
    + apply contains_spec. reflexivity.
  - apply (row_matches_substring "nan" _ _ "phone").
    + apply list_elem_of_further, list_elem_of_here.
    + apply contains_spec. reflexivity.
Defined.

(** X7. The search columns are columns of the frame; there is one as
    soon as the frame has a column; and they are either staff_name, phone
    and client, as far as present and in that order, or, when none of the
    three is present, all the columns. *)
Theorem search_cols_of_spec (cols : list string) :
  (forall c, c ∈ search_cols_of cols -> c ∈ cols) /\
  (cols <> [] -> search_cols_of cols <> []) /\
  ((exists c, c ∈ ["staff_name"; "phone"; "client"] /\ c ∈ cols) ->
   search_cols_of cols
   = filter (fun c => c ∈ cols) ["staff_name"; "phone"; "client"]) /\
  ((forall c, c ∈ ["staff_name"; "phone"; "client"] -> c ∉ cols) ->
   search_cols_of cols = cols).
Proof.
  unfold search_cols_of.
  destruct (bool_decide_reflect
              (filter (fun c => c ∈ cols) ["staff_name"; "phone"; "client"] = []))
    as [Hnil | Hsome].
  - repeat split.
    + trivial.
    + trivial.
    + intros (c & Hpref & Hc).
      assert (Hin : c ∈ filter (fun c => c ∈ cols) ["staff_name"; "phone"; "client"])
        by now apply list_elem_of_filter.
      rewrite Hnil in Hin. inversion Hin.
  - repeat split.
    + intros c Hc. now apply list_elem_of_filter in Hc as [Hc _].
    + intros _. exact Hsome.
    + intros Hnone. exfalso. apply Hsome.
      rewrite !filter_cons, filter_nil.
      repeat match goal with
             | |- context [decide (?c ∈ cols)] =>
                 destruct (decide (c ∈ cols)) as [Hin | _];
                 [exfalso; apply (Hnone c); [set_solver | exact Hin] |]
             end.
      reflexivity.
Qed.

Lemma search_cols_of_spec_witness :
  search_cols_of ["client"; "appt_date"; "staff_name"] = ["staff_name"; "client"]
  /\ search_cols_of ["appt_date"; "aloha_status"] = ["appt_date"; "aloha_status"].
Proof.
  split.
  - destruct (search_cols_of_spec ["client"; "appt_date"; "staff_name"])
      as (_ & _ & H & _).
    rewrite H; [reflexivity |].
    exists "client". split; set_solver.
  - destruct (search_cols_of_spec ["appt_date"; "aloha_status"])
      as (_ & _ & _ & H).
    apply H. apply Forall_forall.
    repeat (constructor;
            [intros Hin;
             repeat (apply elem_of_cons in Hin as [Hin | Hin]; [discriminate |]);
             inversion Hin |]).
    constructor.
Defined.

(** ** TriagePipeline *)

Lemma derive_reasons_insert_derived (r : row) (k : string) (v : cell) :
  k ∈ derived_columns -> derive_reasons (<[k := v]> r) = derive_reasons r.
Proof.
  unfold derived_columns. intros Hk.
  repeat (apply elem_of_cons in Hk as [-> | Hk]); [.. | inversion Hk];
    unfold derive_reasons, reasons_of;
    now rewrite !val_insert_ne by discriminate.
Qed.

Lemma is_unverified_insert_derived (r : row) (k : string) (v : cell) :
  k ∈ derived_columns -> is_unverified (<[k := v]> r) = is_unverified r.
Proof.
  unfold derived_columns. intros Hk.
  repeat (apply elem_of_cons in Hk as [-> | Hk]); [.. | inversion Hk];
    now apply is_unverified_insert_ne.
Qed.

Lemma row_reason_insert_derived (r : row) (k : string) (v : cell) :
  k ∈ derived_columns ->
  row_reason_from_notes_or_hours (<[k := v]> r)
  = row_reason_from_notes_or_hours r.
Proof.
  unfold derived_columns. intros Hk.
  repeat (apply elem_of_cons in Hk as [-> | Hk]); [.. | inversion Hk];
    now apply row_reason_insert_ne.
Qed.

(** The three functions do not read what [derive] writes. *)
Lemma functions_of_augment (r : row) :
  derive_reasons (augment r) = derive_reasons r /\
  is_unverified (augment r) = is_unverified r /\
  row_reason_from_notes_or_hours (augment r) = row_reason_from_notes_or_hours r.
Proof.
  unfold augment. cbv zeta.
  rewrite !derive_reasons_insert_derived, !is_unverified_insert_derived,
    !row_reason_insert_derived by (unfold derived_columns; set_solver).
  now repeat split.
Qed.

Lemma augment_idempotent (r : row) : augment (augment r) = augment r.
Proof.
  destruct (augment_lookup r) as (H1 & H2 & H3 & H4 & _).
  destruct (functions_of_augment r) as (F1 & F2 & F3).
  unfold augment at 1. cbv zeta.
  rewrite F1, (insert_id _ _ _ H1), F2, (insert_id _ _ _ H2), F3,
    (insert_id _ _ _ H3).
  unfold get. rewrite H3. cbn [default from_option id].
  apply insert_id, H4.
Qed.

Lemma dataframe_eq (d1 d2 : dataframe) :
  columns d1 = columns d2 -> rows d1 = rows d2 -> d1 = d2.
Proof. destruct d1, d2. cbn [columns rows]. now intros -> ->. Qed.

Lemma assign_apply_columns (name : string) (f : row -> cell) (df : dataframe) :
  name ∈ columns (assign_apply name f df) /\
  (forall c, c ∈ columns df -> c ∈ columns (assign_apply name f df)) /\
  (forall c, c ∈ columns (assign_apply name f df) -> c ∈ columns df \/ c = name) /\
  (name ∈ columns df -> columns (assign_apply name f df) = columns df).
Proof.
  unfold assign_apply. cbn [columns].
  destruct (bool_decide_reflect (name ∈ columns df)) as [Hin | Hout].
  - repeat split; auto.
  - repeat split.
    + apply elem_of_app. right. apply list_elem_of_here.
    + intros c Hc. apply elem_of_app. now left.
    + intros c Hc. apply elem_of_app in Hc as [Hc | Hc]; [now left |].
      right. apply elem_of_cons in Hc as [-> | Hc]; [reflexivity | inversion Hc].
    + intros Hin. contradiction.
Qed.

Lemma columns_derive (df : dataframe) :
  (forall c, c ∈ derived_columns -> c ∈ columns (derive df)) /\
  (forall c, c ∈ columns df -> c ∈ columns (derive df)) /\
  (forall c, c ∈ columns (derive df) -> c ∈ columns df \/ c ∈ derived_columns) /\
  ((forall c, c ∈ derived_columns -> c ∈ columns df) ->
   columns (derive df) = columns df).
Proof.
  unfold derive. cbv zeta.
  set (f1 := fun r => VStr (derive_reasons r)).
  set (f2 := fun r => VBool (is_unverified r)).
  set (f3 := fun r => VStr (row_reason_from_notes_or_hours r)).
  set (f4 := fun r => get r "unverified_reason" VNaN).
  set (d1 := assign_apply "not_paid_reason" f1 df).
  set (d2 := assign_apply "unverified" f2 d1).
  set (d3 := assign_apply "unverified_reason" f3 d2).
  destruct (assign_apply_columns "not_paid_reason" f1 df) as (A1 & B1 & C1 & E1).
  destruct (assign_apply_columns "unverified" f2 d1) as (A2 & B2 & C2 & E2).
  destruct (assign_apply_columns "unverified_reason" f3 d2) as (A3 & B3 & C3 & E3).
  destruct (assign_apply_columns "reason_session_unverified" f4 d3)
    as (A4 & B4 & C4 & E4).
  fold d1 in A1, B1, C1, E1. fold d2 in A2, B2, C2, E2.
  fold d3 in A3, B3, C3, E3.
  unfold derived_columns. split; [| split; [| split]].
  - intros c Hc.
    apply elem_of_cons in Hc as [-> | Hc]; [exact (B4 _ (B3 _ (B2 _ A1))) |].
    apply elem_of_cons in Hc as [-> | Hc]; [exact (B4 _ (B3 _ A2)) |].
    apply elem_of_cons in Hc as [-> | Hc]; [exact (B4 _ A3) |].
    apply elem_of_cons in Hc as [-> | Hc]; [exact A4 | inversion Hc].
  - intros c Hc. exact (B4 _ (B3 _ (B2 _ (B1 _ Hc)))).
  - intros c Hc.
    destruct (C4 c Hc) as [Hc3 | ->];
      [| right; do 3 apply list_elem_of_further; apply list_elem_of_here].
    destruct (C3 c Hc3) as [Hc2 | ->];
      [| right; do 2 apply list_elem_of_further; apply list_elem_of_here].
    destruct (C2 c Hc2) as [Hc1 | ->];
      [| right; apply list_elem_of_further, list_elem_of_here].
    destruct (C1 c Hc1) as [Hc0 | ->];
      [now left | right; apply list_elem_of_here].
  - intros Hall.
    assert (H1 : "not_paid_reason" ∈ columns df)
      by (apply Hall, list_elem_of_here).
    assert (H2 : "unverified" ∈ columns df)
      by (apply Hall, list_elem_of_further, list_elem_of_here).
    assert (H3 : "unverified_reason" ∈ columns df)
      by (apply Hall; do 2 apply list_elem_of_further; apply list_elem_of_here).
    assert (H4 : "reason_session_unverified" ∈ columns df)
      by (apply Hall; do 3 apply list_elem_of_further; apply list_elem_of_here).
    rewrite E4 by exact (B3 _ (B2 _ (B1 _ H4))).
    rewrite E3 by exact (B2 _ (B1 _ H3)).
    rewrite E2 by exact (B1 _ H2).
    now rewrite E1.
Qed.

(** X8. Deriving again changes nothing: the derived columns are not read
    by the rules, the classifier or the preferred reason, so [derive] is
    idempotent on frames. *)
Theorem derive_idempotent (df : dataframe) : derive (derive df) = derive df.
Proof.
  apply dataframe_eq.
  - destruct (columns_derive (derive df)) as (_ & _ & _ & Heq).
    apply Heq. intros c Hc.
    destruct (columns_derive df) as (Hin & _). now apply Hin.
  - rewrite !rows_derive, map_map. apply map_ext. apply augment_idempotent.
Qed.

(** X9. The unverified view holds, in input order, the augmented forms of
    exactly the input rows that [is_unverified] flags: filtering on the
    derived column is filtering the input on the classifier. *)
Theorem unverified_view_rows (df : dataframe) :
  rows (unverified_view (derive df))
  = map augment (filter (fun r => is_unverified r = true) (rows df)).
Proof.
  unfold unverified_view, select. cbn [rows]. rewrite rows_derive.
  induction (rows df) as [|r rs IH]; [reflexivity |].
  cbn [map]. rewrite !filter_cons, IH.
  destruct (augment_lookup r) as (_ & Hu & _). rewrite Hu.
  destruct (is_unverified r).
  - destruct (decide (true = true)); [| congruence].
    destruct (decide (bool_decide (Some (VBool true) = Some (VBool true)) = true))
      as [_ | Hn]; [reflexivity |].
    exfalso. apply Hn. now apply bool_decide_eq_true.
  - destruct (decide (false = true)); [congruence |].
    destruct (decide (bool_decide (Some (VBool false) = Some (VBool true)) = true))
      as [Hy | _]; [| reflexivity].
    apply bool_decide_eq_true in Hy. congruence.
Qed.






(** ** SchemaNormalizer *)

Lemma rename_fold_lookup (f : ustring -> string) (cols : list ustring)
    (m : gmap ustring string) (h : ustring) :
  fold_left (fun m (kv : ustring * string) => <[kv.1 := kv.2]> m)
    (zip cols (map f cols)) m !! h
  = if decide (h ∈ cols) then Some (f h) else m !! h.
Proof.
  revert m. induction cols as [|a cols IH]; intros m.
  - cbn [map zip_with fold_left]. destruct (decide (h ∈ [])) as [Hin | _];
      [inversion Hin | reflexivity].
  - cbn [map zip_with fold_left fst snd]. rewrite IH.
    destruct (decide (h ∈ cols)) as [Hin | Hout].
    + destruct (decide (h ∈ a :: cols)) as [_ | Hn]; [reflexivity |].
      exfalso. apply Hn. now apply list_elem_of_further.
    + destruct (decide (h = a)) as [-> | Hne].
      * rewrite lookup_insert_eq.
        destruct (decide (a ∈ a :: cols)) as [_ | Hn]; [reflexivity |].
        exfalso. apply Hn. apply list_elem_of_here.
      * rewrite lookup_insert_ne by congruence.
        destruct (decide (h ∈ a :: cols)) as [Hin | _]; [| reflexivity].
        apply elem_of_cons in Hin as [-> | Hin]; contradiction.
Qed.

(** X11. [normalize_columns] gives one identifier per header, in the
    order of the headers, and its [rename] dict maps each header of the
    frame to its identifier and has no other key. *)
Theorem normalize_columns_spec (nfkd : ustring -> ustring) (cols : list ustring) :
  length (normalize_columns nfkd cols).1 = length cols /\
  (forall i h,
     cols !! i = Some h ->
     (normalize_columns nfkd cols).1 !! i = Some (normalize_header nfkd h)) /\
  (forall h,
     h ∈ cols ->
     (normalize_columns nfkd cols).2 !! h = Some (normalize_header nfkd h)) /\
  (forall h, h ∉ cols -> (normalize_columns nfkd cols).2 !! h = None).
Proof.
  unfold normalize_columns. cbn [fst snd]. repeat split.
  - apply length_map.
  - intros i h Hi. change (map ?f ?l) with (f <$> l).
    now rewrite list_lookup_fmap, Hi.
  - intros h Hin. rewrite rename_fold_lookup.
    now destruct (decide (h ∈ cols)).
  - intros h Hout. rewrite rename_fold_lookup.
    destruct (decide (h ∈ cols)); [contradiction | apply lookup_empty].
Qed.

Lemma normalize_columns_spec_witness :
  (normalize_columns (fun s => s)
     [ustring_of_string "Staff Name"; ustring_of_string "Phone #"]).2
    !! ustring_of_string "Phone #" = Some "phone"
  /\ (normalize_columns (fun s => s)
        [ustring_of_string "Staff Name"; ustring_of_string "Phone #"]).2
       !! ustring_of_string "Client" = None.
Proof.
  destruct (normalize_columns_spec (fun s => s)
              [ustring_of_string "Staff Name"; ustring_of_string "Phone #"])
    as (_ & _ & Hin & Hout).
  split.
  - rewrite Hin; [reflexivity |].
    apply list_elem_of_further, list_elem_of_here.
  - apply Hout. intros Hc.
    repeat (apply elem_of_cons in Hc as [Hc | Hc]; [discriminate Hc |]).
    inversion Hc.
Defined.

Lemma is_word_not_underscore (c : ascii) :
  is_word c = true -> is_underscore c = false.
Proof.
  intros Hc. unfold is_underscore.
  destruct (Ascii.eqb_spec c "_") as [-> | _]; [discriminate Hc | reflexivity].
Qed.

Lemma canonical_chars (b : bool) (s : string) (c : ascii) :
  canonical_from b s = true ->
  In c (list_ascii_of_string s) -> is_word c = true \/ c = "_"%char.
Proof.
  revert b. induction s as [|a s IH]; intros b Hs Hin; [inversion Hin |].
  cbn [list_ascii_of_string In] in Hin.
  apply canonical_cons in Hs as [[Ha Hs] | (Ha & -> & -> & Hs)];
    destruct Hin as [<- | Hin]; eauto.
Qed.

Lemma canonical_no_double (b : bool) (s : string) :
  canonical_from b s = true -> contains "__" s = false.
Proof.
  revert b. induction s as [|a s IH]; intros b Hs; [reflexivity |].
  cbn [contains]. apply canonical_cons in Hs as [[Ha Hs] | (Ha & -> & -> & Hs)].
  - rewrite (IH _ Hs), orb_false_r. cbn [startswith].
    apply is_word_not_underscore in Ha. unfold is_underscore in Ha.
    rewrite Ascii.eqb_sym, Ha. reflexivity.
  - rewrite (IH _ Hs), orb_false_r. cbn [startswith].
    rewrite Ascii.eqb_refl.
    destruct s as [|a' s]; [reflexivity |].
    apply canonical_cons in Hs as [[Ha' _] | (_ & _ & Hb & _)];
      [| discriminate Hb].
    apply is_word_not_underscore in Ha'. unfold is_underscore in Ha'.
    rewrite Ascii.eqb_sym in Ha'. now rewrite Ha'.
Qed.

Lemma rstrip_no_trailing (p : ascii -> bool) (s q : string) (c : ascii) :
  rstrip_by p s = q +:+ String c EmptyString -> p c = false.
Proof.
  revert q. induction s as [|a s IH]; intros q Hq.
  - destruct q; discriminate Hq.
  - cbn [rstrip_by] in Hq.
    destruct (p a && is_empty (rstrip_by p s)) eqn:Hg.
    + destruct q; discriminate Hq.
    + destruct q as [|a' q].
      * rewrite append_nil in Hq. injection Hq as -> Hr.
        rewrite Hr in Hg. cbn [is_empty] in Hg. now rewrite andb_true_r in Hg.
      * rewrite append_cons in Hq. injection Hq as _ Hr. now apply (IH q).
Qed.

(** X12. What [normalize_columns] makes of a header is ASCII snake case:
    only characters of [0-9a-z] and underscores, no two underscores in a
    row, and no underscore at the start or at the end. *)
Theorem normalize_header_snake_case (nfkd : ustring -> ustring) (h : ustring) :
  (forall c,
     In c (list_ascii_of_string (normalize_header nfkd h)) ->
     is_word c = true \/ c = "_"%char) /\
  ~ is_substring "__" (normalize_header nfkd h) /\
  startswith (normalize_header nfkd h) "_" = false /\
  (forall p, normalize_header nfkd h <> p +:+ "_").
Proof.
  pose proof (normalize_header_canonical nfkd h) as Hcan.
  split; [| split; [| split]].
  - intros c. now apply canonical_chars with (b := false).
  - rewrite <- contains_spec, (canonical_no_double _ _ Hcan). discriminate.
  - assert (Hs : starts_clean is_underscore (normalize_header nfkd h))
      by apply rstrip_starts_clean, lstrip_starts_clean.
    destruct (normalize_header nfkd h) as [|c s]; [reflexivity |].
    cbn [starts_clean] in Hs. unfold is_underscore in Hs.
    cbn [startswith]. now rewrite Ascii.eqb_sym, Hs.
  - intros p Hp. unfold normalize_header, strip_by in Hp.
    apply rstrip_no_trailing in Hp. discriminate Hp.
Qed.

Lemma normalize_header_snake_case_witness :
  (is_word "s" = true \/ "s"%char = "_"%char) /\
  ~ is_substring "__"
      (normalize_header (fun s => s) (ustring_of_string "_Staff -- Name_")).
Proof.
  destruct (normalize_header_snake_case (fun s => s)
              (ustring_of_string "_Staff -- Name_")) as (Hc & Hd & _).
  split; [| exact Hd].
  apply Hc. left. reflexivity.
Defined.

Lemma lstrip_empty_iff (p : ascii -> bool) (s : string) :
  lstrip_by p s = EmptyString <-> all_by p s = true.
Proof.
  induction s as [|c s IH]; [easy |]. cbn [lstrip_by all_by].
  destruct (p c); cbn [andb]; [exact IH | easy].
Qed.

Lemma rstrip_empty_iff (p : ascii -> bool) (s : string) :
  rstrip_by p s = EmptyString <-> all_by p s = true.
Proof.
  induction s as [|c s IH]; [easy |]. cbn [rstrip_by all_by].
  destruct (p c); cbn [andb].
  - rewrite <- IH. destruct (rstrip_by p s); cbn [is_empty]; easy.
  - easy.
Qed.

Lemma strip_by_empty_iff (p : ascii -> bool) (s : string) :
  strip_by p s = EmptyString <-> all_by p s = true.
Proof.
  unfold strip_by. rewrite rstrip_empty_iff, <- (lstrip_empty_iff p s).
  pose proof (lstrip_starts_clean p s) as Hc.
  destruct (lstrip_by p s) as [|c t]; [easy |].
  cbn [starts_clean] in Hc. cbn [all_by]. rewrite Hc. easy.
Qed.

Lemma all_underscore_sub_runs (b : bool) (s : string) :
  all_by is_underscore (sub_runs b s) = negb (has_word s).
Proof.
  revert b. induction s as [|c s IH]; intros b; [reflexivity |].
  cbn [sub_runs has_word]. destruct (is_word c) eqn:Hc; cbn [orb].
  - cbn [all_by]. now rewrite (is_word_not_underscore _ Hc).
  - destruct b; [apply IH |]. cbn [all_by]. now rewrite IH.
Qed.

Lemma is_word_lower_ascii (cp : N) :
  (cp < 128)%N -> is_word (lower_char (ascii_of_N cp)) = is_ascii_alnum cp.
Proof.
  intros Hlt. unfold lower_char.
  rewrite (N_ascii_embedding cp) by lia.
  destruct (N.leb_spec 65 cp) as [H65 | H65];
    destruct (N.leb_spec cp 90) as [H90 | H90];
    destruct (N.leb_spec 192 cp) as [H192 | H192]; try lia;
    cbn [andb orb]; unfold is_word, is_ascii_alnum;
    rewrite ?N_ascii_embedding by lia;
    apply Bool.eq_iff_eq_true;
    rewrite !orb_true_iff, !andb_true_iff, !N.leb_le; lia.
Qed.

Lemma has_word_lower_encode (u : ustring) :
  has_word (lower (encode_ascii_ignore u)) = false <->
  Forall (fun cp => is_ascii_alnum cp = false) u.
Proof.
  induction u as [|cp u IH]; [easy |]. cbn [encode_ascii_ignore].
  rewrite Forall_cons, <- IH.
  destruct (N.ltb_spec cp 128) as [Hlt | Hge].
  - cbn [lower has_word]. rewrite (is_word_lower_ascii _ Hlt).
    now rewrite orb_false_iff.
  - assert (Hcp : is_ascii_alnum cp = false).
    { unfold is_ascii_alnum. apply Bool.not_true_iff_false.
      rewrite !orb_true_iff, !andb_true_iff, !N.leb_le. lia. }
    tauto.
Qed.

(** X13. A header normalises to the empty identifier exactly when its
    NFKD form holds no ASCII letter or digit. *)
Theorem normalize_header_empty_iff (nfkd : ustring -> ustring) (h : ustring) :
  normalize_header nfkd h = EmptyString <->
  Forall (fun cp => is_ascii_alnum cp = false) (nfkd h).
Proof.
  unfold normalize_header, re_sub_nonword.
  rewrite strip_by_empty_iff, all_underscore_sub_runs, negb_true_iff.
  apply has_word_lower_encode.
Qed.

Lemma normalize_header_empty_iff_witness :
  normalize_header (fun s => s) (ustring_of_string " (#) ") = EmptyString.
Proof.
  apply (normalize_header_empty_iff (fun s => s)).
  repeat constructor.
Defined.

(** ** The classifier and the aloha rule *)

Lemma all_by_append (p : ascii -> bool) (x y : string) :
  all_by p (x +:+ y) = all_by p x && all_by p y.
Proof.
  induction x as [|c x IH]; [reflexivity |].
  rewrite append_cons. cbn [all_by]. now rewrite IH, andb_assoc.
Qed.

Lemma isspace_lower_char (c : ascii) : isspace c = true -> lower_char c = c.
Proof.
  destruct c as [[] [] [] [] [] [] [] []]; intros H;
    first [discriminate H | reflexivity].
Qed.

Lemma all_space_lower (s : string) :
  all_by isspace s = true -> lower s = s.
Proof.
  induction s as [|c s IH]; [reflexivity |]. cbn [all_by lower].
  intros H. apply andb_true_iff in H as [Hc Hs].
  now rewrite (isspace_lower_char _ Hc), IH.
Qed.

(** Text whose lowercase holds a word that is not all white space does
    not strip to nothing. *)
Lemma strip_nonempty_of_contains (t s : string) :
  all_by isspace t = false ->
  contains t (lower s) = true ->
  is_empty (strip s) = false.
Proof.
  intros Ht Hc. apply is_empty_false. intros Hs.
  apply strip_by_empty_iff in Hs.
  rewrite (all_space_lower _ Hs) in Hc.
  apply contains_spec in Hc as (p & q & Hpq).
  rewrite Hpq, !all_by_append, Ht, andb_false_r in Hs. discriminate Hs.
Qed.

Lemma unverified_val_nonempty (r : row) :
  is_unverified r = true -> is_empty (val r "aloha_status") = false.
Proof.
  unfold is_unverified, val.
  set (cell := get r "aloha_status" (VStr EmptyString)).
  destruct (isna cell) eqn:Hna; [discriminate |].
  cbn [existsb]. rewrite orb_false_r. intros H.
  unfold py_or. destruct (truthy cell) eqn:Htr.
  - apply orb_true_iff in H as [H | H];
      eapply strip_nonempty_of_contains; try exact H; reflexivity.
  - exfalso. destruct cell as [s | z | f | b | |]; cbn [truthy py_str] in *.
    + apply negb_false_iff, is_empty_true in Htr. subst s. discriminate H.
    + apply negb_false_iff, Z.eqb_eq in Htr. subst z. discriminate H.
    + apply negb_false_iff in Htr. unfold in_tuple in Htr.
      cbn [existsb] in Htr. rewrite orb_false_r in Htr.
      apply orb_true_iff in Htr as [Hf | Hf]; apply String.eqb_eq in Hf;
        subst f; discriminate H.
    + subst b. discriminate H.
    + discriminate Htr.
    + discriminate Hna.
Qed.

(** X14. A row that [is_unverified] flags has a status text, so
    [derive_reasons] reports it as "Aloha status ..." and the row is not
    "Ready to bill", unless that text contains "ready". *)
Theorem unverified_gets_aloha_reason (r : row) :
  is_unverified r = true ->
  contains "ready" (lower (val r "aloha_status")) = false ->
  ("Aloha status " +:+ val r "aloha_status") ∈ reasons_of r /\
  derive_reasons r <> "Ready to bill".
Proof.
  intros Hu Hready. pose proof (unverified_val_nonempty r Hu) as Hne.
  assert (Hfire : fires aloha_rule r = true).
  { cbn [fires aloha_rule]. now rewrite Hne, Hready. }
  split.
  - rewrite reasons_of_fired. unfold fired_messages.
    apply list_elem_of_fmap. exists aloha_rule. split; [reflexivity |].
    apply list_elem_of_filter. split; [exact Hfire |].
    unfold rules. do 6 apply list_elem_of_further. apply list_elem_of_here.
  - intros Hr. apply ready_to_bill_fires_none in Hr.
    unfold rules in Hr. rewrite !Forall_cons in Hr.
    destruct Hr as (_ & _ & _ & _ & _ & _ & Hf & _). congruence.
Qed.

Lemma unverified_gets_aloha_reason_witness :
  derive_reasons (<["aloha_status" := VStr " Cancelled by client "]> ∅)
  <> "Ready to bill".
Proof.
  apply (unverified_gets_aloha_reason
           (<["aloha_status" := VStr " Cancelled by client "]> ∅)).
  - reflexivity.
  - reflexivity.
Defined.

Lemma lower_char_idempotent (c : ascii) :
  lower_char (lower_char c) = lower_char c.
Proof. destruct c as [[] [] [] [] [] [] [] []]; reflexivity. Qed.

Lemma lower_idempotent (s : string) : lower (lower s) = lower s.
Proof.
  induction s as [|c s IH]; [reflexivity |]. cbn [lower].
  now rewrite lower_char_idempotent, IH.
Qed.

(** X15. [is_unverified] does not look at letter case: two status texts
    with the same lowercase are flagged alike, and so are a text and its
    lowercase. *)
Theorem is_unverified_case_insensitive (r : row) (s1 s2 : string) :
  (lower s1 = lower s2 ->
   is_unverified (<["aloha_status" := VStr s1]> r)
   = is_unverified (<["aloha_status" := VStr s2]> r)) /\
  is_unverified (<["aloha_status" := VStr (lower s1)]> r)
  = is_unverified (<["aloha_status" := VStr s1]> r).
Proof.
  unfold is_unverified, get. rewrite !lookup_insert_eq.
  cbn [default from_option id isna py_str]. split.
  - now intros ->.
  - now rewrite lower_idempotent.
Qed.

Lemma is_unverified_case_insensitive_witness :
  is_unverified (<["aloha_status" := VStr "UNVERIFIED"]> ∅)
  = is_unverified (<["aloha_status" := VStr "Unverified"]> ∅).
Proof.
  apply (is_unverified_case_insensitive ∅ "UNVERIFIED" "Unverified").
  reflexivity.
Defined.
